(** * klipper-ledstrip: the status display of [klipper-ledstrip.py]

    A shallow embedding of the script: the colour helpers, the strip
    animations, the status client and the polling loop with its interrupt
    handler, together with the properties stated about them.

    - Python [int] is [Z]; Python [float] is IEEE binary64, modelled by the
      rational a float denotes and the correctly rounded operations
      (module [Binary64]), checked against [SpecFloat] on the values of the
      script.
    - The LED driver ([Adafruit_NeoPixel]) is an external collaborator: a
      procedure of the script is embedded as the list of calls it makes, in
      order, and [Driver.exec] gives those calls their meaning on a strip.
    - The status API is an external collaborator too: the loop of [run] is
      a machine that goes from one query to the next, fed with the answers.
      A query that fails (network, JSON, a missing key) ends the script
      there; the model has the answers only, so that a run of the script
      is a prefix of a run of the model.
    - The numbers are the finite ones.  A float that is infinite or not a
      number has no counterpart, and of the [OverflowError]s of Python
      only that of [math.floor] is modelled: the conversion of an [int] of
      [2^1024] or more to [float] and [int()] of an infinite float are
      not.  What is proved about the calls a procedure goes on to make is
      stated for arguments that keep every float finite; the other
      properties hold of every prefix of its calls.
    - The module constants [LED_BRIGHTNESS] and [REVERSE] are read at call
      time by the functions that use them; they are section variables
      here, and [Module Script] holds the values of the script. *)

From Stdlib Require Import ZArith QArith Qround Qreduction Qabs SpecFloat.
From Stdlib Require Import String.
From Stdlib Require Import List Finite Sorted Bool Lia Lqa.
Import ListNotations.

Local Open Scope Z_scope.

(* ================================================================== *)
(** * Definitions *)
(* ================================================================== *)

(** ** IEEE binary64: the arithmetic of Python's [float] *)

Module Binary64.

(** A finite binary64 number is a rational [m * 2^e] with [|m| < 2^53] and
    [-1074 <= e]; the sign of a zero is not observable by this program
    ([-0.0 > 0.0] is false, [int(-0.0)] is [0], [-0.0] is falsy), so one
    zero is enough. *)
Definition float := Q.

(** Round to the nearest integer, ties to the even one. *)
Definition rne (y : Q) : Z :=
  let f := Qfloor y in
  match (y - inject_Z f ?= 1 # 2)%Q with
  | Lt => f
  | Gt => f + 1
  | Eq => if Z.even f then f else f + 1
  end.

(** Truncation toward zero. *)
Definition Qtrunc (x : Q) : Z := Z.quot (Qnum x) (Zpos (Qden x)).

(** Magnitudes are measured in units of [2^-1074], the spacing of the
    subnormal numbers: every finite binary64 number is an integer number
    of such units. *)
Definition units : Z := 2 ^ 1074.

(** For a magnitude of [u] units, the exponent of the spacing of the
    binary64 numbers around it: a number of [53 + j] bits keeps its 53
    leading ones.  Below [2^53] units the spacing is one unit (gradual
    underflow). *)
Definition fexp (u : Q) : Z := Z.max 0 (Z.log2 (Qfloor u) - 52).

(** Correct rounding of a non-negative rational, in units. *)
Definition round_units (u : Q) : Z :=
  let j := fexp u in
  rne (u / inject_Z (2 ^ j)) * 2 ^ j.

Definition round_mag (x : Q) : Q :=
  Qred (inject_Z (round_units (x * inject_Z units)) / inject_Z units).

(** [fl x]: the binary64 number nearest to the rational [x], ties to
    even.  The exponent range is unbounded above: a result of magnitude
    [2^1024] or more is what IEEE turns into an infinity, see
    [overflows]. *)
Definition fl (x : Q) : float :=
  if Qlt_le_dec x 0 then Qred (- round_mag (- x)) else round_mag x.

Definition overflows (x : float) : bool :=
  Qle_bool (inject_Z (2 ^ 1024)) (Qabs x).

End Binary64.

Import Binary64.

(** The binary64 operations of the Standard Library ([SpecFloat], the
    specification of the primitive floats), against which [fl] is checked
    on the values of the script. *)
Module IEEE.

Definition prec : Z := 53.
Definition emax : Z := 1024.

Definition of_Z (n : Z) : spec_float := binary_normalize prec emax n 0 false.
Definition mul : spec_float -> spec_float -> spec_float := SFmul prec emax.
Definition div : spec_float -> spec_float -> spec_float := SFdiv prec emax.
Definition add : spec_float -> spec_float -> spec_float := SFadd prec emax.
Definition sub : spec_float -> spec_float -> spec_float := SFsub prec emax.

(** The rational a finite number denotes. *)
Definition to_Q (x : spec_float) : option Q :=
  match x with
  | S754_zero _ => Some 0%Q
  | S754_finite s m e =>
      let v :=
        if 0 <=? e then inject_Z (Z.pos m * 2 ^ e)
        else (inject_Z (Z.pos m) / inject_Z (2 ^ (- e)))%Q in
      Some (if s then (- v)%Q else v)
  | S754_infinity _ | S754_nan => None
  end.

Definition agrees (x : spec_float) (y : float) : bool :=
  match to_Q x with
  | Some q => Qeq_bool q y
  | None => false
  end.

End IEEE.

(** ** Python values and built-ins used by the script *)

Module Py.

(** A number is an [int] or a [float]; the arithmetic operators convert
    an [int] operand to [float] when the other operand is a [float]. *)
Inductive num : Type :=
| Int (z : Z)
| Float (x : float).

(** The [float] of a number, for an [int] below [2^1024] in magnitude
    (Python raises [OverflowError] beyond). *)
Definition to_float (a : num) : float :=
  match a with
  | Int z => fl (inject_Z z)
  | Float x => x
  end.

Definition add (a b : num) : num :=
  match a, b with
  | Int x, Int y => Int (x + y)
  | _, _ => Float (fl (to_float a + to_float b))
  end.

Definition sub (a b : num) : num :=
  match a, b with
  | Int x, Int y => Int (x - y)
  | _, _ => Float (fl (to_float a - to_float b))
  end.

Definition mul (a b : num) : num :=
  match a, b with
  | Int x, Int y => Int (x * y)
  | _, _ => Float (fl (to_float a * to_float b))
  end.

(** [a / b] for a divisor that is not zero (the literals [2], [100] and
    [255] of the script) and a quotient that is a finite float; the
    quotient of two [int]s is rounded once. *)
Definition truediv (a b : num) : num :=
  match a, b with
  | Int x, Int y => Float (fl (inject_Z x / inject_Z y))
  | _, _ => Float (fl (to_float a / to_float b))
  end.

Definition is_zero (a : num) : bool :=
  match a with
  | Int z => z =? 0
  | Float x => Qeq_bool x 0
  end.

(** Truth value of an optional number: [None], [0] and [0.0] are false. *)
Definition truthy (a : option num) : bool :=
  match a with
  | None => false
  | Some w => negb (is_zero w)
  end.

(** [round(a)] with one argument: an [int], ties to even. *)
Definition round (a : num) : Z :=
  match a with
  | Int z => z
  | Float x => rne x
  end.

(** [int(a)]: truncation toward zero, for a float that is finite
    (Python raises [OverflowError] for an infinite one). *)
Definition int (a : num) : Z :=
  match a with
  | Int z => z
  | Float x => Qtrunc x
  end.

(** [a > 0.0]. *)
Definition positive (x : float) : bool := negb (Qle_bool x 0).

(** [math.modf(a)]: the fractional and the whole part, both floats; the
    subtraction is exact. *)
Definition modf (a : num) : float * float :=
  let x := to_float a in
  let whole := inject_Z (Qtrunc x) in
  (Qred (x - whole), whole).

(** [range(stop)] and [range(start, stop, -1)]. *)
Definition range (stop : Z) : list Z :=
  map Z.of_nat (seq 0 (Z.to_nat stop)).

Definition range_down (start stop : Z) : list Z :=
  map (fun k => start - Z.of_nat k) (seq 0 (Z.to_nat (start - stop))).

(** Exceptions raised by the arithmetic of [heating_percent]. *)
Inductive exn : Type :=
| ZeroDivisionError
| OverflowError.

Inductive result (A : Type) : Type :=
| Ok (a : A)
| Raise (e : exn).
Arguments Ok {A} a.
Arguments Raise {A} e.

Definition bind {A B : Type} (r : result A) (k : A -> result B) : result B :=
  match r with
  | Ok a => k a
  | Raise e => Raise e
  end.

(** [a / b] for a divisor that comes from data. *)
Definition truediv_checked (a b : num) : result num :=
  if is_zero b then Raise ZeroDivisionError else Ok (truediv a b).

(** [math.floor(a)]; an infinite float raises [OverflowError]. *)
Definition floor (a : num) : result Z :=
  match a with
  | Int z => Ok z
  | Float x => if overflows x then Raise OverflowError else Ok (Qfloor x)
  end.

End Py.

Import Py(num, Int, Float, result, Ok, Raise, exn, ZeroDivisionError, OverflowError).

Notation "x <- c1 ;; c2" := (Py.bind c1 (fun x => c2))
  (at level 61, c1 at next level, right associativity).

(** ** The LED driver *)

Module Driver.

(** A colour is the triple of its red, green and blue channels. *)
Definition Color : Type := Z * Z * Z.

Definition off : Color := (0, 0, 0).

(** What a procedure of the script does to the outside: calls of the
    strip object, [time.sleep] and the two uses of [print]. *)
Inductive call : Type :=
| SetBrightness (b : Z)
| SetPixelColorRGB (n : Z) (c : Color)
| Show
| Sleep (secs : num)
| Print (i pixel : Z)
| PrintState (state : string).

(** The strip object: the pixel buffer, the global brightness and the
    frames flushed to the hardware so far, the latest first. *)
Record strip : Type := {
  led_data : list Color;
  brightness : Z;
  frames : list (list Color * Z)
}.

Definition numPixels (s : strip) : Z := Z.of_nat (List.length (led_data s)).

Fixpoint store (l : list Color) (n : nat) (c : Color) : list Color :=
  match l, n with
  | [], _ => []
  | _ :: t, O => c :: t
  | h :: t, S k => h :: store t k c
  end.

(** A write at an index that is not a pixel of the strip stores
    nothing. *)
Definition set_pixel (l : list Color) (n : Z) (c : Color) : list Color :=
  if (0 <=? n) && (n <? Z.of_nat (List.length l)) then store l (Z.to_nat n) c
  else l.

Definition step (s : strip) (e : call) : strip :=
  match e with
  | SetBrightness b =>
      {| led_data := led_data s; brightness := b; frames := frames s |}
  | SetPixelColorRGB n c =>
      {| led_data := set_pixel (led_data s) n c;
         brightness := brightness s; frames := frames s |}
  | Show =>
      {| led_data := led_data s; brightness := brightness s;
         frames := (led_data s, brightness s) :: frames s |}
  | Sleep _ | Print _ _ | PrintState _ => s
  end.

Definition exec (s : strip) (t : list call) : strip := fold_left step t s.

Definition is_write (e : call) : bool :=
  match e with SetPixelColorRGB _ _ => true | _ => false end.

Definition keeps_brightness (e : call) : bool :=
  match e with SetBrightness _ => false | _ => true end.

(** The pixel indices a trace writes, in order. *)
Definition written (t : list call) : list Z :=
  flat_map (fun e => match e with SetPixelColorRGB n _ => [n] | _ => [] end) t.

(** The colours a trace writes, in order. *)
Definition colours (t : list call) : list Color :=
  flat_map (fun e => match e with SetPixelColorRGB _ c => [c] | _ => [] end) t.

(** From [s] to [s'] frames were flushed, all at the brightness [b]. *)
Definition shown_at (b : Z) (s s' : strip) : Prop :=
  exists new,
    frames s' = new ++ frames s /\ Forall (fun f => snd f = b) new.

End Driver.

Import Driver.

(** ** Status client *)

(** The fields of a heater object of the status API that the script reads. *)
Record heater : Type := {
  temperature : num;
  target : num
}.

(** [heating_percent], applied to the heater object the query returned. *)
Definition heating_percent (temp : heater) : result Z :=
  if Py.is_zero (target temp) then Ok 0
  else
    ratio <- Py.truediv_checked (temperature temp) (target temp) ;;
    Py.floor (Py.mul ratio (Int 100)).

(** What the status API answers at one query: the fields the script
    reads.  The query itself, which can fail, is not part of the
    functions below: they start from the answer. *)
Record status : Type := {
  state : string;
  heater_bed : heater;
  extruder : heater;
  display_progress : num
}.

Definition printer_state (answer : status) : string := state answer.

Definition printing_percent (answer : status) : result Z :=
  Py.floor (Py.mul (display_progress answer) (Int 100)).

(** ** Color mixer *)

Definition average (num_a num_b : num) : Z :=
  Py.round (Py.truediv (Py.add num_a num_b) (Int 2)).

Definition nums (c : Color) : num * num * num :=
  let '(r, g, b) := c in (Int r, Int g, Int b).

Definition scale (c : num * num * num) (k : num) : num * num * num :=
  let '(r, g, b) := c in (Py.mul r k, Py.mul g k, Py.mul b k).

Definition mix_color (colour1 colour2 : Color) (percent_of_c1 : option num)
  : Color :=
  let '(colour1, colour2) :=
    match percent_of_c1 with
    | Some w =>
        if Py.truthy percent_of_c1 then
          let percent_of_c2 := Py.sub (Int 1) w in
          (scale (nums colour1) w, scale (nums colour2) percent_of_c2)
        else (nums colour1, nums colour2)
    | None => (nums colour1, nums colour2)
    end in
  let '(r1, g1, b1) := colour1 in
  let '(r2, g2, b2) := colour2 in
  let col_r := average r1 r2 in
  let col_g := average g1 g2 in
  let col_b := average b1 b2 in
  (Py.int (Int col_r), Py.int (Int col_g), Py.int (Int col_b)).

(** A colour of the data model: three channels of 0 to 255. *)
Definition valid_color (c : Color) : Prop :=
  let '(r, g, b) := c in
  0 <= r <= 255 /\ 0 <= g <= 255 /\ 0 <= b <= 255.

(** A number between 0 and [k]. *)
Definition within (k : Z) (a : num) : Prop :=
  match a with
  | Int z => 0 <= z <= k
  | Float x => (0 <= x <= inject_Z k)%Q
  end.

(** The mixer as the specification words it: with a weight, the channels
    of the first colour are scaled by the weight and those of the second
    by one minus the weight, and the scaled channels are averaged; without
    a weight the channels are averaged as they are; every channel of the
    result is made an integer. *)
Definition mixColor_spec (c1 c2 : Color) (weight : option num) : Color :=
  let '(scaled1, scaled2) :=
    match weight with
    | Some w => (scale (nums c1) w, scale (nums c2) (Py.sub (Int 1) w))
    | None => (nums c1, nums c2)
    end in
  let '(r1, g1, b1) := scaled1 in
  let '(r2, g2, b2) := scaled2 in
  (Py.int (Int (average r1 r2)),
   Py.int (Int (average g1 g2)),
   Py.int (Int (average b1 b2))).

(** ** Strip renderer *)

Section Renderer.

(** The module constants the renderer reads. *)
Variable LED_BRIGHTNESS : Z.
Variable REVERSE : bool.

Definition color_brightness_correction (color : Color) : Color :=
  let brightness_correction := Py.truediv (Int LED_BRIGHTNESS) (Int 255) in
  let '(r, g, b) := color in
  (Py.int (Py.mul (Int r) brightness_correction),
   Py.int (Py.mul (Int g) brightness_correction),
   Py.int (Py.mul (Int b) brightness_correction)).

(** [progress] keeps a counter next to the calls it makes. *)
Record painter : Type := {
  calls : list call;
  pixels_remaining : Z
}.

Definition emit (p : painter) (e : call) : painter :=
  {| calls := calls p ++ [e]; pixels_remaining := pixels_remaining p |}.

Definition decrement (p : painter) : painter :=
  {| calls := calls p; pixels_remaining := pixels_remaining p - 1 |}.

(** First loop: the pixels that are fully [progress_color]. *)
Definition fill (num_pixels : Z) (progress_color : Color)
    (upper_whole : float) (p : painter) : painter :=
  fold_left
    (fun p i =>
       let pixel := if REVERSE then (num_pixels - 1) - i else i in
       decrement
         (emit p (SetPixelColorRGB pixel
                    (color_brightness_correction progress_color))))
    (Py.range (Py.int (Float upper_whole))) p.

(** The boundary pixel, when the bar ends inside a pixel. *)
Definition tween (num_pixels : Z) (base_color progress_color : Color)
    (upper_remainder upper_whole : float) (p : painter) : painter :=
  if Py.positive upper_remainder then
    let tween_color :=
      mix_color progress_color base_color (Some (Float upper_remainder)) in
    let pixel :=
      if REVERSE then (num_pixels - Py.int (Float upper_whole)) - 1
      else Py.int (Float upper_whole) in
    decrement
      (emit p (SetPixelColorRGB pixel
                 (color_brightness_correction tween_color)))
  else p.

(** Last loop: the pixels left are [base_color]. *)
Definition rest (num_pixels : Z) (base_color : Color) (p : painter)
  : painter :=
  let remaining := pixels_remaining p in
  fold_left
    (fun p i =>
       let pixel :=
         if REVERSE then (remaining - 1) - i
         else (num_pixels - remaining) + i in
       emit p (SetPixelColorRGB pixel
                 (color_brightness_correction base_color)))
    (Py.range remaining) p.

(** The bar [percent] is split into whole pixels and a remainder. *)
Definition upper_bar (num_pixels percent : Z) : float * float :=
  Py.modf (Py.mul (Py.truediv (Int percent) (Int 100)) (Int num_pixels)).

(** The bar as a float, before [math.modf] splits it, the number of
    whole pixels and whether there is a boundary pixel. *)
Definition bar (num_pixels percent : Z) : float :=
  Py.to_float (Py.mul (Py.truediv (Int percent) (Int 100)) (Int num_pixels)).

Definition whole (num_pixels percent : Z) : Z :=
  Py.int (Float (snd (upper_bar num_pixels percent))).

Definition boundary (num_pixels percent : Z) : bool :=
  Py.positive (fst (upper_bar num_pixels percent)).

Definition painted (num_pixels percent : Z)
    (base_color progress_color : Color) : painter :=
  let p := {| calls := [SetBrightness LED_BRIGHTNESS];
              pixels_remaining := num_pixels |} in
  let '(upper_remainder, upper_whole) := upper_bar num_pixels percent in
  let p := fill num_pixels progress_color upper_whole p in
  let p := tween num_pixels base_color progress_color
             upper_remainder upper_whole p in
  rest num_pixels base_color p.

Definition progress (num_pixels percent : Z)
    (base_color progress_color : Color) : list call :=
  calls (painted num_pixels percent base_color progress_color) ++ [Show].

(** The calls of the three parts of [progress], each taken alone: the
    whole pixels, the boundary pixel and the pixels left to
    [base_color]. *)
Definition restart (p : painter) : painter :=
  {| calls := []; pixels_remaining := pixels_remaining p |}.

Definition segments (num_pixels percent : Z)
    (base_color progress_color : Color)
  : list call * list call * list call :=
  let '(upper_remainder, upper_whole) := upper_bar num_pixels percent in
  let p1 :=
    fill num_pixels progress_color upper_whole
      {| calls := []; pixels_remaining := num_pixels |} in
  let p2 :=
    tween num_pixels base_color progress_color
      upper_remainder upper_whole (restart p1) in
  let p3 := rest num_pixels base_color (restart p2) in
  (calls p1, calls p2, calls p3).

Definition whole_segment (num_pixels percent : Z)
    (base_color progress_color : Color) : list call :=
  fst (fst (segments num_pixels percent base_color progress_color)).

Definition boundary_segment (num_pixels percent : Z)
    (base_color progress_color : Color) : list call :=
  snd (fst (segments num_pixels percent base_color progress_color)).

Definition rest_segment (num_pixels percent : Z)
    (base_color progress_color : Color) : list call :=
  snd (segments num_pixels percent base_color progress_color).

(** The calls of each part, in closed form: [w] whole pixels, the
    boundary pixel after [w] whole ones, and [r] pixels left. *)
Definition whole_calls (n : Z) (c : Color) (w : Z) : list call :=
  map (fun i =>
         SetPixelColorRGB (if REVERSE then n - 1 - i else i)
           (color_brightness_correction c))
      (Py.range w).

Definition boundary_calls (n : Z) (c : Color) (w : Z) : list call :=
  [SetPixelColorRGB (if REVERSE then n - w - 1 else w)
     (color_brightness_correction c)].

Definition rest_calls (n : Z) (c : Color) (r : Z) : list call :=
  map (fun i =>
         SetPixelColorRGB (if REVERSE then r - 1 - i else n - r + i)
           (color_brightness_correction c))
      (Py.range r).

(** The pixels of the bar that are not left to [base_color]. *)
Definition lit_pixels (num_pixels percent : Z) : Z :=
  Z.of_nat
    (List.length (whole_segment num_pixels percent off off)
     + List.length (boundary_segment num_pixels percent off off)).

Definition fade (num_pixels : Z) (color : Color) (speed : string)
  : list call :=
  let speed :=
    if String.eqb speed "slow" then fl (5 # 100) else fl (5 # 1000) in
  map (fun pixel => SetPixelColorRGB pixel color) (Py.range num_pixels)
  ++ [Show]
  ++ flat_map (fun i => [SetBrightness i; Show; Sleep (Float speed)])
       (Py.range LED_BRIGHTNESS)
  ++ [Sleep (Py.mul (Float speed) (Int 5))]
  ++ flat_map (fun i => [SetBrightness i; Show; Sleep (Float speed)])
       (Py.range_down LED_BRIGHTNESS (-1)).

(** The positions the lit pixel of [chase] takes, in order. *)
Definition chase_positions (num_pixels : Z) (reverse : bool) : list Z :=
  if reverse then rev (Py.range (num_pixels + 1))
  else Py.range (num_pixels + 1).

(** One position of the sweep: every pixel is written and flushed. *)
Definition chase_pass (num_pixels : Z) (color : Color) (i : Z)
  : list call :=
  flat_map
    (fun pixel =>
       [Print i pixel;
        SetPixelColorRGB pixel (if i =? pixel then color else (0, 0, 0));
        Show;
        Sleep (Float (fl (1 # 100)))])
    (Py.range num_pixels).

Definition chase (num_pixels : Z) (color : Color) (reverse : bool)
  : list call :=
  SetBrightness LED_BRIGHTNESS
  :: flat_map (chase_pass num_pixels color)
       (chase_positions num_pixels reverse).

Definition bounce (num_pixels : Z) (color : Color) : list call :=
  chase num_pixels color false ++ chase num_pixels color true.

End Renderer.

(** ** The script's constants *)

Module Script.
Definition LED_COUNT : Z := 10.
Definition LED_BRIGHTNESS : Z := 100.
Definition REVERSE : bool := true.
Definition HEATING_BASE_COLOR : Color := (0, 0, 255).
Definition HEATING_PROGRESS_COLOR : Color := (255, 0, 0).
Definition PRINT_BASE_COLOR : Color := (0, 0, 0).
Definition PRINT_PROGRESS_COLOR : Color := (0, 255, 0).
Definition STANDBY_COLOR : Color := (255, 0, 255).
Definition PAUSED_COLOR : Color := (0, 255, 0).
Definition ERROR_COLOR : Color := (255, 0, 0).

(** The strip as [run] creates it. *)
Definition strip : Driver.strip :=
  {| led_data := repeat off (Z.to_nat LED_COUNT);
     brightness := LED_BRIGHTNESS;
     frames := [] |}.
End Script.

(** ** Main loop *)

(** The [except KeyboardInterrupt] block of [run]. *)
Definition on_interrupt (num_pixels : Z) : list call :=
  map (fun i => SetPixelColorRGB i (0, 0, 0)) (Py.range num_pixels)
  ++ [Show].

(** The places of the loop of [run] where the status API is queried:
    [print(printer_state())] at the top, the condition of each [while],
    and the three polls of the printing phase. *)
Inductive place : Type :=
| Top
| WhilePrinting
| PollBed
| PollExtruder
| PollPrint
| WhileStandby
| WhilePaused
| WhileError.

Section MainLoop.

Variable LED_BRIGHTNESS : Z.
Variable REVERSE : bool.
Variable num_pixels : Z.

(** A poll of the printing phase: below the threshold the bar is drawn
    and the same poll comes again after two seconds. *)
Definition poll (percent : result Z) (threshold : Z)
    (base_color progress_color : Color) (again next : place)
  : result (place * list call) :=
  percent <- percent ;;
  if percent <? threshold then
    Ok (again,
        progress LED_BRIGHTNESS REVERSE num_pixels percent
          base_color progress_color
        ++ [Sleep (Int 2)])
  else Ok (next, []).

(** From one query to the next: the place the loop is at, the answer to
    its query, the place of the next query and the calls made on the
    way.  An exception of the status client ends the loop. *)
Definition advance (at_ : place) (answer : status)
  : result (place * list call) :=
  match at_ with
  | Top => Ok (WhilePrinting, [PrintState (printer_state answer)])
  | WhilePrinting =>
      if String.eqb (printer_state answer) "printing" then Ok (PollBed, [])
      else Ok (WhileStandby, [])
  | PollBed =>
      poll (heating_percent (heater_bed answer)) 99
        Script.HEATING_BASE_COLOR Script.HEATING_PROGRESS_COLOR
        PollBed PollExtruder
  | PollExtruder =>
      poll (heating_percent (extruder answer)) 99
        Script.HEATING_BASE_COLOR Script.HEATING_PROGRESS_COLOR
        PollExtruder PollPrint
  | PollPrint =>
      poll (printing_percent answer) 100
        Script.PRINT_BASE_COLOR Script.PRINT_PROGRESS_COLOR
        PollPrint WhilePrinting
  | WhileStandby =>
      if String.eqb (printer_state answer) "standby" then
        Ok (WhileStandby,
            fade LED_BRIGHTNESS num_pixels Script.STANDBY_COLOR "slow")
      else Ok (WhilePaused, [])
  | WhilePaused =>
      if String.eqb (printer_state answer) "paused" then
        Ok (WhilePaused, bounce LED_BRIGHTNESS num_pixels Script.PAUSED_COLOR)
      else Ok (WhileError, [])
  | WhileError =>
      if String.eqb (printer_state answer) "error" then
        Ok (WhileError,
            fade LED_BRIGHTNESS num_pixels Script.ERROR_COLOR "fast")
      else Ok (Top, [Sleep (Int 2)])
  end.

(** The calls of the loop over its first [queries] queries; [api n] is
    the answer to the query number [n]. *)
Fixpoint main_loop (queries : nat) (api : nat -> status) (n : nat)
    (at_ : place) : list call :=
  match queries with
  | O => []
  | S queries' =>
      match advance at_ (api n) with
      | Ok (next, done) => done ++ main_loop queries' api (S n) next
      | Raise _ => []
      end
  end.

End MainLoop.

(** [run] with an interrupt: the loop is under way, it has made
    [interrupt] calls of those of its first [queries] queries when the
    interrupt arrives, and the handler runs.  [strip] is the strip as
    [begin] left it. *)
Definition run (LED_BRIGHTNESS : Z) (REVERSE : bool) (strip : strip)
    (api : nat -> status) (queries interrupt : nat) : Driver.strip :=
  let before :=
    firstn interrupt
      (main_loop LED_BRIGHTNESS REVERSE (numPixels strip) queries api 0 Top) in
  exec (exec strip before) (on_interrupt (numPixels strip)).

(** ** Vocabulary of the further properties *)

Definition red (c : Color) : Z := fst (fst c).
Definition green (c : Color) : Z := snd (fst c).
Definition blue (c : Color) : Z := snd c.

(** Channel by channel, [c] is at most [d]. *)
Definition dimmer (c d : Color) : Prop :=
  red c <= red d /\ green c <= green d /\ blue c <= blue d.

(** Round half to even of the half of an integer. *)
Definition half_even (s : Z) : Z :=
  if Z.even s then s / 2
  else if Z.even (s / 2) then s / 2 else s / 2 + 1.

(** The colour [progress] leaves on the pixel at the distance [d] from the
    end the bar starts at: a whole pixel, the boundary pixel or a pixel
    left to the base colour. *)
Definition bar_pixel (LED_BRIGHTNESS : Z) (num_pixels percent : Z)
    (base_color progress_color : Color) (d : Z) : Color :=
  if d <? whole num_pixels percent then
    color_brightness_correction LED_BRIGHTNESS progress_color
  else if (d =? whole num_pixels percent) && boundary num_pixels percent then
    color_brightness_correction LED_BRIGHTNESS
      (mix_color progress_color base_color
         (Some (Float (fst (upper_bar num_pixels percent)))))
  else color_brightness_correction LED_BRIGHTNESS base_color.

(** The strip with the bar on it. *)
Definition bar_pixels (LED_BRIGHTNESS : Z) (REVERSE : bool)
    (num_pixels percent : Z) (base_color progress_color : Color)
  : list Color :=
  map (fun i =>
         bar_pixel LED_BRIGHTNESS num_pixels percent base_color progress_color
           (if REVERSE then num_pixels - 1 - i else i))
      (Py.range num_pixels).

(** The number of flushes of a trace. *)
Definition shows (t : list call) : nat :=
  List.length (filter (fun e => match e with Show => true | _ => false end) t).

(** The strip with the pixel [i] at [color] and the others off: what one
    position of [chase] draws. *)
Definition one_lit (num_pixels : Z) (color : Color) (i : Z) : list Color :=
  map (fun pixel => if i =? pixel then color else (0, 0, 0))
    (Py.range num_pixels).

(** The states of the printer that the loop of [run] has a branch for. *)
Definition recognised (state : string) : bool :=
  ((state =? "printing") || (state =? "standby")
   || (state =? "paused") || (state =? "error"))%string.

(** The places of the loop outside the three polls of the printing
    phase. *)
Definition between_phases (at_ : place) : bool :=
  match at_ with
  | PollBed | PollExtruder | PollPrint => false
  | _ => true
  end.

(** A reading of the status API that is a finite number: an [int] that
    a float holds exactly, or a float that is not infinite. *)
Definition finite_reading (a : num) : Prop :=
  match a with
  | Int z => - 2 ^ 53 <= z <= 2 ^ 53
  | Float x => overflows x = false
  end.

(** The percent a poll reads, when it raises nothing. *)
Definition percent_read (percent : result Z) : Z :=
  match percent with
  | Ok p => p
  | Raise _ => 0
  end.

(** The state that keeps the loop at one of its three animation
    branches, and the animation played there. *)
Definition branch_state (at_ : place) : option string :=
  match at_ with
  | WhileStandby => Some "standby"%string
  | WhilePaused => Some "paused"%string
  | WhileError => Some "error"%string
  | _ => None
  end.

Definition branch_animation (LED_BRIGHTNESS num_pixels : Z) (at_ : place)
  : list call :=
  match at_ with
  | WhileStandby => fade LED_BRIGHTNESS num_pixels Script.STANDBY_COLOR "slow"
  | WhilePaused => bounce LED_BRIGHTNESS num_pixels Script.PAUSED_COLOR
  | WhileError => fade LED_BRIGHTNESS num_pixels Script.ERROR_COLOR "fast"
  | _ => []
  end.


(* ================================================================== *)
(** * Properties *)
(* ================================================================== *)

(** ** The float model on the values of the script *)

Example fl_tenth : fl (1 # 10) = (3602879701896397 # 36028797018963968)%Q.
Proof. vm_compute. reflexivity. Qed.

(** [0.55 * 10] is [5.5], and [0.07 * 100] is not [7]. *)
Example bar_10_55 : bar 10 55 = (11 # 2)%Q.
Proof. vm_compute. reflexivity. Qed.

Example bar_100_7 :
  bar 100 7 = (7881299347898369 # 1125899906842624)%Q.
Proof. vm_compute. reflexivity. Qed.

(** The bar of every percent from 0 to 100 on the strip of the script,
    and of some percents on other strips, is the binary64 number that
    [SpecFloat] computes. *)
Example bar_agrees_with_binary64 :
  forallb
    (fun '(n, percents) =>
       forallb
         (fun p =>
            IEEE.agrees
              (IEEE.mul (IEEE.div (IEEE.of_Z p) (IEEE.of_Z 100)) (IEEE.of_Z n))
              (bar n p))
         percents)
    [(10, Py.range 101);
     (1, [0; 1; 50; 99; 100]);
     (3, [0; 33; 34; 67; 100]);
     (7, [0; 14; 29; 57; 100]);
     (60, [0; 5; 55; 95; 100]);
     (144, [0; 7; 25; 75; 100])]
  = true.
Proof. vm_compute. reflexivity. Qed.

(** The brightness correction of some channels, at the brightness of the
    script. *)
Example correction_agrees_with_binary64 :
  let factor := IEEE.div (IEEE.of_Z 100) (IEEE.of_Z 255) in
  let brightness_correction := Py.truediv (Int 100) (Int 255) in
  forallb
    (fun c =>
       IEEE.agrees (IEEE.mul (IEEE.of_Z c) factor)
         (Py.to_float (Py.mul (Int c) brightness_correction)))
    [0; 1; 2; 25; 51; 64; 100; 127; 128; 200; 254; 255]
  = true.
Proof. vm_compute. reflexivity. Qed.

(** The arithmetic of the boundary pixel of a strip of 10 pixels: the
    weight, one minus the weight, a full channel scaled by each, their sum
    and its half. *)
Example tween_agrees_with_binary64 :
  forallb
    (fun p =>
       let b := IEEE.mul (IEEE.div (IEEE.of_Z p) (IEEE.of_Z 100)) (IEEE.of_Z 10) in
       let w := IEEE.sub b (IEEE.of_Z (whole 10 p)) in
       let w' := IEEE.sub (IEEE.of_Z 1) w in
       let x := IEEE.mul (IEEE.of_Z 255) w in
       let y := IEEE.mul (IEEE.of_Z 255) w' in
       let m := fst (upper_bar 10 p) in
       let m' := Py.sub (Int 1) (Float m) in
       let u := Py.mul (Int 255) (Float m) in
       let v := Py.mul (Int 255) m' in
       IEEE.agrees w m
       && IEEE.agrees w' (Py.to_float m')
       && IEEE.agrees x (Py.to_float u)
       && IEEE.agrees y (Py.to_float v)
       && IEEE.agrees (IEEE.div (IEEE.add x y) (IEEE.of_Z 2))
            (Py.to_float (Py.truediv (Py.add u v) (Int 2))))
    [1; 7; 29; 33; 55; 57; 99]
  = true.
Proof. vm_compute. reflexivity. Qed.

(** The loop of [run] while the printer is in standby: the state is
    printed, the printing loop is skipped and a slow fade is played. *)
Example loop_in_standby :
  let idle := {| temperature := Float 0%Q; target := Float 0%Q |} in
  let api := fun _ : nat =>
    {| state := "standby"; heater_bed := idle; extruder := idle;
       display_progress := Float 0%Q |} in
  main_loop 100 true 10 3 api 0 Top
  = PrintState "standby" :: fade 100 10 Script.STANDBY_COLOR "slow".
Proof. vm_compute. reflexivity. Qed.

(** An interrupt in the middle of that fade: the strip was lit, and is
    off when the process ends. *)
Example interrupt_in_a_fade :
  let idle := {| temperature := Float 0%Q; target := Float 0%Q |} in
  let api := fun _ : nat =>
    {| state := "standby"; heater_bed := idle; extruder := idle;
       display_progress := Float 0%Q |} in
  led_data (exec Script.strip (firstn 57 (main_loop 100 true 10 3 api 0 Top)))
  = repeat Script.STANDBY_COLOR 10
  /\ led_data (run 100 true Script.strip api 3 57) = repeat (0, 0, 0) 10.
Proof. vm_compute. split; reflexivity. Qed.

(** A bed at 30 degrees for a target of 60 is at 50 percent. *)
Example bed_half_way :
  heating_percent {| temperature := Float 30%Q; target := Float 60%Q |} = Ok 50.
Proof. vm_compute. reflexivity. Qed.

(** The trace of [progress] on the script's strip at 55 percent. *)
Example progress_10_55 :
  progress 100 true 10 55 (0, 0, 255) (255, 0, 0)
  = [SetBrightness 100;
     SetPixelColorRGB 9 (100, 0, 0); SetPixelColorRGB 8 (100, 0, 0);
     SetPixelColorRGB 7 (100, 0, 0); SetPixelColorRGB 6 (100, 0, 0);
     SetPixelColorRGB 5 (100, 0, 0); SetPixelColorRGB 4 (25, 0, 25);
     SetPixelColorRGB 3 (0, 0, 100); SetPixelColorRGB 2 (0, 0, 100);
     SetPixelColorRGB 1 (0, 0, 100); SetPixelColorRGB 0 (0, 0, 100);
     Show].
Proof. vm_compute. reflexivity. Qed.

(** ** Rounding *)

Module Binary64Facts.

Local Open Scope Q_scope.

Lemma floor_cases (y : Q) :
  inject_Z (Qfloor y) <= y /\ y < inject_Z (Qfloor y) + 1.
Proof.
  split; [apply Qfloor_le|].
  generalize (Qlt_floor y). rewrite inject_Z_plus. auto.
Qed.

Lemma rne_range (y : Q) : (Qfloor y <= rne y <= Qfloor y + 1)%Z.
Proof.
  unfold rne. destruct (_ ?= _); [destruct (Z.even _)| |]; lia.
Qed.

Lemma rne_mono (x y : Q) : x <= y -> (rne x <= rne y)%Z.
Proof.
  intros Hxy.
  pose proof (Qfloor_resp_le _ _ Hxy) as Hf.
  destruct (Z.eq_dec (Qfloor x) (Qfloor y)) as [E|NE].
  - unfold rne. rewrite <- E.
    destruct (Qcompare_spec (x - inject_Z (Qfloor x)) (1 # 2)) as [Hx|Hx|Hx];
    destruct (Qcompare_spec (y - inject_Z (Qfloor x)) (1 # 2)) as [Hy|Hy|Hy];
    try (destruct (Z.even (Qfloor x))); try lia; exfalso; lra.
  - pose proof (rne_range x). pose proof (rne_range y). lia.
Qed.

Lemma rne_comp (x y : Q) : x == y -> rne x = rne y.
Proof.
  intros E. apply Z.le_antisymm; apply rne_mono; rewrite E; apply Qle_refl.
Qed.

Lemma rne_Z (k : Z) : rne (inject_Z k) = k.
Proof.
  unfold rne. rewrite Qfloor_Z.
  destruct (Qcompare_spec (inject_Z k - inject_Z k) (1 # 2)) as [H|H|H];
    try reflexivity; exfalso; lra.
Qed.

Lemma pow2_pos (j : Z) : (0 <= j)%Z -> 0 < inject_Z (2 ^ j).
Proof.
  intros Hj. change 0 with (inject_Z 0). rewrite <- Zlt_Qlt.
  apply Z.pow_pos_nonneg; lia.
Qed.

Lemma fexp_nonneg (u : Q) : (0 <= fexp u)%Z.
Proof. unfold fexp. lia. Qed.

Lemma fexp_mono (u v : Q) : u <= v -> (fexp u <= fexp v)%Z.
Proof.
  intros H. unfold fexp.
  pose proof (Z.log2_le_mono _ _ (Qfloor_resp_le _ _ H)). lia.
Qed.

(** Dividing by the spacing and comparing with an integer. *)
Lemma scaled_le (u : Q) (j k : Z) :
  (0 <= j)%Z -> u <= inject_Z (k * 2 ^ j) -> u / inject_Z (2 ^ j) <= inject_Z k.
Proof.
  intros Hj H. apply Qle_shift_div_r; [now apply pow2_pos|].
  now rewrite <- inject_Z_mult.
Qed.

Lemma scaled_ge (u : Q) (j k : Z) :
  (0 <= j)%Z -> inject_Z (k * 2 ^ j) <= u -> inject_Z k <= u / inject_Z (2 ^ j).
Proof.
  intros Hj H. apply Qle_shift_div_l; [now apply pow2_pos|].
  now rewrite <- inject_Z_mult.
Qed.

Lemma round_units_upper (u : Q) :
  0 <= u -> (round_units u <= 2 ^ (fexp u + 53))%Z.
Proof.
  intros Hu. unfold round_units.
  pose proof (fexp_nonneg u) as Hj.
  assert (Hf : (0 <= Qfloor u)%Z).
  { rewrite <- (Qfloor_Z 0). now apply Qfloor_resp_le. }
  assert (Hlt : (Qfloor u + 1 <= 2 ^ (fexp u + 53))%Z).
  { destruct (Z.eq_dec (Qfloor u) 0) as [E|NE].
    - rewrite E. simpl (0 + 1)%Z.
      assert (0 < 2 ^ (fexp u + 53))%Z by (apply Z.pow_pos_nonneg; lia). lia.
    - destruct (Z.log2_spec (Qfloor u)) as [_ Hs]; [lia|].
      assert (2 ^ Z.succ (Z.log2 (Qfloor u)) <= 2 ^ (fexp u + 53))%Z.
      { apply Z.pow_le_mono_r; [lia|]. unfold fexp. lia. }
      lia. }
  rewrite Z.add_comm, Z.pow_add_r by lia.
  apply Z.mul_le_mono_nonneg_r; [apply Z.pow_nonneg; lia|].
  rewrite <- (rne_Z (2 ^ 53)). apply rne_mono, scaled_le; [lia|].
  rewrite <- Z.pow_add_r by lia.
  apply Qle_trans with (inject_Z (Qfloor u + 1)).
  - apply Qlt_le_weak, Qlt_floor.
  - rewrite <- Zle_Qle.
    now replace (53 + fexp u)%Z with (fexp u + 53)%Z by lia.
Qed.

Lemma round_units_lower (v : Q) :
  (0 < fexp v)%Z -> (2 ^ (fexp v + 52) <= round_units v)%Z.
Proof.
  intros Hj. unfold round_units.
  assert (Hl : fexp v = (Z.log2 (Qfloor v) - 52)%Z) by (unfold fexp in *; lia).
  assert (Hf : (0 < Qfloor v)%Z).
  { destruct (Z_lt_le_dec 0 (Qfloor v)) as [H|H]; [exact H|].
    rewrite (Z.log2_nonpos _ H) in Hl. lia. }
  destruct (Z.log2_spec _ Hf) as [Hs _].
  rewrite Z.add_comm, Z.pow_add_r by lia.
  apply Z.mul_le_mono_nonneg_r; [apply Z.pow_nonneg; lia|].
  rewrite <- (rne_Z (2 ^ 52)). apply rne_mono, scaled_ge; [lia|].
  rewrite <- Z.pow_add_r by lia.
  apply Qle_trans with (inject_Z (Qfloor v)); [|apply Qfloor_le].
  rewrite <- Zle_Qle. replace (52 + fexp v)%Z with (Z.log2 (Qfloor v)) by lia.
  exact Hs.
Qed.

Lemma round_units_mono (u v : Q) :
  0 <= u -> u <= v -> (round_units u <= round_units v)%Z.
Proof.
  intros Hu Huv.
  pose proof (fexp_mono _ _ Huv) as Hj.
  pose proof (fexp_nonneg u) as Hju.
  destruct (Z.eq_dec (fexp u) (fexp v)) as [E|NE].
  - unfold round_units. rewrite <- E.
    apply Z.mul_le_mono_nonneg_r; [apply Z.pow_nonneg; lia|].
    apply rne_mono. apply Qmult_le_compat_r; [exact Huv|].
    apply Qinv_le_0_compat, Qlt_le_weak, pow2_pos; lia.
  - apply Z.le_trans with (2 ^ (fexp u + 53))%Z;
      [now apply round_units_upper|].
    apply Z.le_trans with (2 ^ (fexp v + 52))%Z;
      [|apply round_units_lower; lia].
    apply Z.pow_le_mono_r; lia.
Qed.

Lemma round_units_comp (u v : Q) : u == v -> round_units u = round_units v.
Proof.
  intros E. unfold round_units, fexp. rewrite (Qfloor_comp _ _ E).
  apply f_equal2; [|reflexivity]. apply rne_comp. now rewrite E.
Qed.

Lemma round_units_0 : round_units 0 = 0%Z.
Proof. reflexivity. Qed.

Lemma round_units_nonneg (u : Q) : 0 <= u -> (0 <= round_units u)%Z.
Proof.
  intros Hu. rewrite <- round_units_0. apply round_units_mono; [lra|exact Hu].
Qed.

Lemma units_pos : 0 < inject_Z units.
Proof. apply pow2_pos. lia. Qed.

Lemma Qred_Z (n : Z) : Qred (inject_Z n) = inject_Z n.
Proof.
  pose proof (Qred_correct (inject_Z n)) as E.
  pose proof (gcd_Qred (inject_Z n)) as G.
  destruct (Qred (inject_Z n)) as [a d].
  unfold Qeq in E. simpl in E, G.
  assert (Hd : Z.pos d = 1%Z).
  { assert (Hdiv : (Z.pos d | a)%Z) by (exists n; lia).
    apply Z.divide_gcd_iff in Hdiv; [|lia].
    rewrite Z.gcd_comm in Hdiv. lia. }
  unfold inject_Z. f_equal; [|lia].
  rewrite Hd in E. lia.
Qed.

Lemma round_mag_mono (x y : Q) :
  0 <= x -> x <= y -> round_mag x <= round_mag y.
Proof.
  intros Hx Hxy. unfold round_mag. rewrite !Qred_correct.
  pose proof units_pos as HU.
  apply Qmult_le_compat_r; [|apply Qinv_le_0_compat, Qlt_le_weak, HU].
  rewrite <- Zle_Qle. apply round_units_mono.
  - apply Qmult_le_0_compat; [exact Hx|apply Qlt_le_weak, HU].
  - apply Qmult_le_compat_r; [exact Hxy|apply Qlt_le_weak, HU].
Qed.

Lemma round_mag_comp (x y : Q) : x == y -> round_mag x = round_mag y.
Proof.
  intros E. unfold round_mag.
  rewrite (round_units_comp (x * inject_Z units) (y * inject_Z units));
    [reflexivity|now rewrite E].
Qed.

Lemma round_mag_0 : round_mag 0 = 0.
Proof. reflexivity. Qed.

Lemma round_mag_nonneg (x : Q) : 0 <= x -> 0 <= round_mag x.
Proof.
  intros Hx. rewrite <- round_mag_0 at 1. apply round_mag_mono; [lra|exact Hx].
Qed.

(** Rounding is monotone. *)
Lemma fl_mono (x y : Q) : x <= y -> fl x <= fl y.
Proof.
  intros Hxy. unfold fl.
  destruct (Qlt_le_dec x 0) as [Hx|Hx], (Qlt_le_dec y 0) as [Hy|Hy].
  - rewrite !Qred_correct. apply Qopp_le_compat, round_mag_mono; lra.
  - rewrite Qred_correct.
    assert (0 <= round_mag (- x)) by (apply round_mag_nonneg; lra).
    assert (0 <= round_mag y) by (now apply round_mag_nonneg).
    lra.
  - exfalso. lra.
  - now apply round_mag_mono.
Qed.

(** Rounding depends on the value of the rational only. *)
Lemma fl_comp (x y : Q) : x == y -> fl x = fl y.
Proof.
  intros E. unfold fl.
  destruct (Qlt_le_dec x 0) as [Hx|Hx], (Qlt_le_dec y 0) as [Hy|Hy];
    try (exfalso; lra).
  - rewrite (round_mag_comp (- x) (- y)); [reflexivity|now rewrite E].
  - now apply round_mag_comp.
Qed.

Lemma fl_0 : fl 0 = 0.
Proof. reflexivity. Qed.

Lemma fl_nonneg (x : Q) : 0 <= x -> 0 <= fl x.
Proof. intros H. rewrite <- fl_0 at 1. now apply fl_mono. Qed.

(** A number of at most 53 bits, scaled by a power of two, is a binary64
    number: rounding in units leaves it alone. *)
Lemma round_units_exact (k j : Z) :
  (0 <= k < 2 ^ 53)%Z -> (0 <= j)%Z ->
  round_units (inject_Z (k * 2 ^ j)) = (k * 2 ^ j)%Z.
Proof.
  intros Hk Hj. destruct (Z.eq_dec k 0) as [->|Hk0]; [reflexivity|].
  unfold round_units, fexp. rewrite Qfloor_Z.
  rewrite Z.log2_mul_pow2 by lia.
  assert (Z.log2 k < 53)%Z by (apply Z.log2_lt_pow2; lia).
  pose proof (Z.log2_nonneg k).
  set (e := Z.max 0 (j + Z.log2 k - 52)).
  assert (He : (0 <= e <= j)%Z) by (unfold e; lia).
  replace (k * 2 ^ j)%Z with (k * 2 ^ (j - e) * 2 ^ e)%Z at 1.
  2:{ rewrite <- Z.mul_assoc, <- Z.pow_add_r by lia. do 2 f_equal. lia. }
  rewrite (rne_comp _ (inject_Z (k * 2 ^ (j - e)))).
  - rewrite rne_Z, <- Z.mul_assoc, <- Z.pow_add_r by lia. do 2 f_equal. lia.
  - rewrite inject_Z_mult. apply Qdiv_mult_l.
    pose proof (pow2_pos e (proj1 He)). lra.
Qed.

(** The integers below [2^53] are binary64 numbers. *)
Lemma fl_Z (n : Z) : (0 <= n < 2 ^ 53)%Z -> fl (inject_Z n) = inject_Z n.
Proof.
  intros Hn. unfold fl.
  destruct (Qlt_le_dec (inject_Z n) 0) as [H|_].
  { exfalso. change 0 with (inject_Z 0) in H. rewrite <- Zlt_Qlt in H. lia. }
  unfold round_mag.
  rewrite (round_units_comp _ (inject_Z (n * 2 ^ 1074)))
    by (unfold units; now rewrite inject_Z_mult).
  rewrite round_units_exact by lia.
  rewrite <- (Qred_Z n). apply Qred_complete.
  rewrite inject_Z_mult. apply Qdiv_mult_l.
  pose proof units_pos. unfold units in *. lra.
Qed.

Lemma fl_le_Z (x : Q) (n : Z) :
  (0 <= n < 2 ^ 53)%Z -> x <= inject_Z n -> fl x <= inject_Z n.
Proof.
  intros Hn Hx. rewrite <- (fl_Z n Hn). now apply fl_mono.
Qed.

(** For a non-negative float, [int] is the floor. *)
Lemma Qtrunc_floor (x : Q) : 0 <= x -> Qtrunc x = Qfloor x.
Proof.
  destruct x as [a d]. unfold Qle, Qtrunc, Qfloor. simpl. intros H.
  apply Z.quot_div_nonneg; lia.
Qed.

Lemma Qtrunc_Z (z : Z) : Qtrunc (inject_Z z) = z.
Proof. unfold Qtrunc. simpl. apply Z.quot_1_r. Qed.

End Binary64Facts.


(** ** Ranges *)

Module PyFacts.

Lemma range_length (k : Z) : List.length (Py.range k) = Z.to_nat k.
Proof. unfold Py.range. now rewrite length_map, length_seq. Qed.

Lemma range_nonpos (k : Z) : k <= 0 -> Py.range k = [].
Proof.
  intros H. unfold Py.range. now replace (Z.to_nat k) with O by lia.
Qed.

Lemma range_succ (k : Z) : 0 <= k -> Py.range (k + 1) = Py.range k ++ [k].
Proof.
  intros H. unfold Py.range.
  replace (Z.to_nat (k + 1)) with (S (Z.to_nat k)) by lia.
  rewrite seq_S, map_app. simpl. do 2 f_equal. lia.
Qed.

Lemma in_range (k i : Z) : In i (Py.range k) <-> 0 <= i < k.
Proof.
  unfold Py.range. rewrite in_map_iff. split.
  - intros [j [<- Hj]]. apply in_seq in Hj. lia.
  - intros H. exists (Z.to_nat i). split; [lia|]. apply in_seq. lia.
Qed.

Lemma seq_from (a b : nat) : seq a b = map (Nat.add a) (seq 0 b).
Proof.
  induction a as [|a IH].
  - simpl. now rewrite map_id.
  - rewrite <- seq_shift, IH, map_map. reflexivity.
Qed.

Lemma range_app (a b : Z) :
  0 <= a -> 0 <= b ->
  Py.range (a + b) = Py.range a ++ map (fun i => a + i) (Py.range b).
Proof.
  intros Ha Hb. unfold Py.range.
  replace (Z.to_nat (a + b)) with (Z.to_nat a + Z.to_nat b)%nat by lia.
  rewrite seq_app, map_app. f_equal. simpl.
  rewrite seq_from, !map_map. apply map_ext. intros k. lia.
Qed.

Lemma range_cons (k : Z) :
  0 <= k -> Py.range (1 + k) = 0 :: map (fun i => 1 + i) (Py.range k).
Proof. intros H. now rewrite range_app by lia. Qed.

Lemma rev_range (n : Z) :
  rev (Py.range n) = map (fun i => n - 1 - i) (Py.range n).
Proof.
  destruct (Z_lt_le_dec n 0) as [Hn|Hn].
  { now rewrite range_nonpos by lia. }
  revert n Hn. apply natlike_ind; [reflexivity|].
  intros k Hk IH. unfold Z.succ.
  rewrite range_succ at 1 by lia. rewrite rev_app_distr.
  rewrite Z.add_comm, range_cons by lia. cbn [rev app map].
  f_equal; [lia|].
  rewrite IH, map_map. apply map_ext. intros i. lia.
Qed.

Lemma range_NoDup (n : Z) : NoDup (Py.range n).
Proof.
  unfold Py.range. apply Injective_map_NoDup; [|apply seq_NoDup].
  intros a b. lia.
Qed.

Lemma range_nth (n : Z) (k : nat) (d : Z) :
  Z.of_nat k < n -> nth k (Py.range n) d = Z.of_nat k.
Proof.
  intros H. unfold Py.range.
  rewrite (nth_indep _ d (Z.of_nat 0)) by (rewrite length_map, length_seq; lia).
  rewrite map_nth, seq_nth by lia. reflexivity.
Qed.

End PyFacts.

(** ** The strip under a trace of calls *)

Module DriverFacts.

Lemma store_length (l : list Color) (k : nat) (c : Color) :
  List.length (store l k c) = List.length l.
Proof.
  revert k. induction l as [|h t IH]; intros [|k]; simpl; auto.
Qed.

Lemma nth_store_eq (l : list Color) (k : nat) (c d : Color) :
  (k < List.length l)%nat -> nth k (store l k c) d = c.
Proof.
  revert k. induction l as [|h t IH]; intros [|k] H; simpl in *;
    try lia; auto. apply IH. lia.
Qed.

Lemma nth_store_neq (l : list Color) (i k : nat) (c d : Color) :
  i <> k -> nth i (store l k c) d = nth i l d.
Proof.
  revert i k. induction l as [|h t IH]; intros [|i] [|k] H; simpl;
    try congruence; auto.
Qed.

Lemma set_pixel_length (l : list Color) (n : Z) (c : Color) :
  List.length (set_pixel l n c) = List.length l.
Proof.
  unfold set_pixel. destruct (_ && _); [apply store_length|reflexivity].
Qed.

Lemma exec_app (s : strip) (t1 t2 : list call) :
  exec s (t1 ++ t2) = exec (exec s t1) t2.
Proof. apply fold_left_app. Qed.

Lemma exec_cons (s : strip) (e : call) (t : list call) :
  exec s (e :: t) = exec (step s e) t.
Proof. reflexivity. Qed.

Lemma step_numPixels (s : strip) (e : call) :
  numPixels (step s e) = numPixels s.
Proof.
  unfold numPixels. destruct e; simpl; try reflexivity.
  now rewrite set_pixel_length.
Qed.

(** No call changes the number of pixels. *)
Lemma exec_numPixels (t : list call) (s : strip) :
  numPixels (exec s t) = numPixels s.
Proof.
  revert s. induction t as [|e t IH]; intros s; [reflexivity|].
  now rewrite exec_cons, IH, step_numPixels.
Qed.

Lemma exec_length (t : list call) (s : strip) :
  List.length (led_data (exec s t)) = List.length (led_data s).
Proof. pose proof (exec_numPixels t s) as H. unfold numPixels in H. lia. Qed.

Lemma written_app (t1 t2 : list call) :
  written (t1 ++ t2) = written t1 ++ written t2.
Proof. apply flat_map_app. Qed.

Lemma colours_app (t1 t2 : list call) :
  colours (t1 ++ t2) = colours t1 ++ colours t2.
Proof. apply flat_map_app. Qed.

Lemma written_map (f : Z -> Z) (c : Color) (l : list Z) :
  written (map (fun i => SetPixelColorRGB (f i) c) l) = map f l.
Proof. induction l as [|a l IH]; simpl; [|rewrite <- IH]; reflexivity. Qed.

Lemma colours_map (f : Z -> Z) (c : Color) (l : list Z) :
  colours (map (fun i => SetPixelColorRGB (f i) c) l)
  = repeat c (List.length l).
Proof. induction l as [|a l IH]; simpl; [|rewrite <- IH]; reflexivity. Qed.

(** A pixel that a trace writes, in a trace that writes one colour only,
    holds that colour afterwards. *)
Lemma nth_exec_written (c : Color) (t : list call) (s : strip)
    (i : nat) (d : Color) :
  Forall (eq c) (colours t) ->
  In (Z.of_nat i) (written t) ->
  (i < List.length (led_data s))%nat ->
  nth i (led_data (exec s t)) d = c.
Proof.
  intros Hc Hin Hi. revert Hc Hin.
  induction t as [|e t IH] using rev_ind; intros Hc Hin; [destruct Hin|].
  rewrite colours_app in Hc. apply Forall_app in Hc. destruct Hc as [Hc He].
  rewrite written_app in Hin. rewrite exec_app.
  change (exec (exec s t) [e]) with (step (exec s t) e).
  pose proof (exec_length t s) as HL.
  destruct e as [b|n c'| | | |]; simpl in *;
    try (rewrite app_nil_r in Hin; now apply IH).
  inversion He as [|? ? Hcc _]; subst c'. unfold set_pixel.
  destruct (Z.eq_dec n (Z.of_nat i)) as [->|Hn].
  - replace (_ && _) with true by (symmetry; apply andb_true_intro; lia).
    rewrite Nat2Z.id. apply nth_store_eq. lia.
  - apply in_app_or in Hin. destruct Hin as [Hin|[Hin|[]]]; [|congruence].
    destruct (_ && _) eqn:E; [|now apply IH].
    apply andb_prop in E. destruct E as [E _]. apply Z.leb_le in E.
    rewrite nth_store_neq by lia. now apply IH.
Qed.

(** A trace that writes every pixel, always with the colour [c], leaves
    the whole buffer at [c]. *)
Lemma exec_uniform (c : Color) (t : list call) (s : strip) :
  Forall (eq c) (colours t) ->
  (forall i, 0 <= i < numPixels s -> In i (written t)) ->
  led_data (exec s t) = repeat c (List.length (led_data s)).
Proof.
  intros Hc Hall.
  apply (nth_ext _ _ c c).
  - now rewrite exec_length, repeat_length.
  - intros i Hi. rewrite exec_length in Hi. rewrite nth_repeat.
    apply nth_exec_written; auto. apply Hall. unfold numPixels. lia.
Qed.

Lemma exec_writes (t : list call) (s : strip) :
  forallb is_write t = true ->
  brightness (exec s t) = brightness s /\ frames (exec s t) = frames s.
Proof.
  revert s. induction t as [|e t IH]; intros s H; [now split|].
  simpl in H. apply andb_prop in H. destruct H as [He Ht].
  rewrite exec_cons. destruct (IH (step s e) Ht) as [-> ->].
  destruct e; try discriminate. now split.
Qed.

Lemma is_write_map (f : Z -> Z) (c : Color) (l : list Z) :
  forallb is_write (map (fun i => SetPixelColorRGB (f i) c) l) = true.
Proof. induction l as [|a l IH]; simpl; auto. Qed.

(** The pixel buffer depends on the pixel buffer only. *)
Lemma led_data_exec (t : list call) (s s' : strip) :
  led_data s = led_data s' -> led_data (exec s t) = led_data (exec s' t).
Proof.
  revert s s'. induction t as [|e t IH]; intros s s' H; [exact H|].
  rewrite !exec_cons. apply IH. destruct e; simpl; congruence.
Qed.

(** Painting: set the brightness, write pixels, flush. *)
Lemma exec_paint (b : Z) (t : list call) (s : strip) :
  forallb is_write t = true ->
  exec s (SetBrightness b :: t ++ [Show])
  = {| led_data := led_data (exec s t);
       brightness := b;
       frames := (led_data (exec s t), b) :: frames s |}.
Proof.
  intros H. rewrite exec_cons, exec_app.
  set (s1 := step s (SetBrightness b)).
  destruct (exec_writes t s1 H) as [Hb Hf].
  cbn [exec fold_left step]. rewrite Hb, Hf. unfold s1.
  rewrite (led_data_exec t (step s (SetBrightness b)) s); reflexivity.
Qed.

Lemma exec_flush (t : list call) (s : strip) :
  forallb is_write t = true ->
  exec s (t ++ [Show])
  = {| led_data := led_data (exec s t);
       brightness := brightness s;
       frames := (led_data (exec s t), brightness s) :: frames s |}.
Proof.
  intros H. rewrite exec_app. destruct (exec_writes t s H) as [Hb Hf].
  cbn [exec fold_left step]. now rewrite Hb, Hf.
Qed.

(** Calls that do not set the brightness flush at the brightness they
    found. *)
Lemma exec_keeps_brightness (t : list call) (s : strip) :
  forallb keeps_brightness t = true ->
  brightness (exec s t) = brightness s
  /\ shown_at (brightness s) s (exec s t).
Proof.
  revert s. induction t as [|e t IH]; intros s H.
  - split; [reflexivity|]. exists []. now split.
  - simpl in H. apply andb_prop in H. destruct H as [He Ht].
    rewrite exec_cons. destruct (IH (step s e) Ht) as [Hb (new & Hf & Hall)].
    unfold shown_at. rewrite Hb, Hf.
    destruct e; try discriminate; cbn [step brightness frames] in *;
      (split; [reflexivity|]); try (now exists new).
    exists (new ++ [(led_data s, brightness s)]).
    rewrite <- app_assoc. split; [reflexivity|].
    apply Forall_app. split; [exact Hall|]. now constructor.
Qed.

Lemma forallb_flat_map {A : Type} (p : call -> bool)
    (f : A -> list call) (l : list A) :
  (forall a, forallb p (f a) = true) -> forallb p (flat_map f l) = true.
Proof.
  intros H. induction l as [|a l IH]; [reflexivity|].
  simpl. rewrite forallb_app, H, IH. reflexivity.
Qed.

Lemma map_keeps_brightness (f : Z -> Z) (c : Color) (l : list Z) :
  forallb keeps_brightness (map (fun i => SetPixelColorRGB (f i) c) l)
  = true.
Proof. induction l as [|a l IH]; simpl; auto. Qed.

Lemma writes_keep_brightness (t : list call) :
  forallb is_write t = true -> forallb keeps_brightness t = true.
Proof.
  induction t as [|e t IH]; [reflexivity|]. simpl. intros H.
  apply andb_prop in H. destruct H as [He Ht]. rewrite (IH Ht).
  destruct e; try discriminate; reflexivity.
Qed.

End DriverFacts.

(** ** The colour helpers *)

Module MixerFacts.

Import Binary64Facts.

Local Open Scope Q_scope.

Lemma inject_Z_nonneg (z : Z) : (0 <= z)%Z -> 0 <= inject_Z z.
Proof. intros H. change 0 with (inject_Z 0). now rewrite <- Zle_Qle. Qed.

(** Below [2^53] the float of an [int] is that [int]. *)
Lemma to_float_within (k : Z) (a : num) :
  (k < 2 ^ 53)%Z -> within k a -> 0 <= Py.to_float a <= inject_Z k.
Proof.
  intros Hk. destruct a as [z|x]; simpl; [|auto].
  intros Hz. rewrite fl_Z by lia. split; [apply inject_Z_nonneg; lia|].
  rewrite <- Zle_Qle. lia.
Qed.

Lemma fl_within (x : Q) (k : Z) :
  (0 <= k < 2 ^ 53)%Z -> 0 <= x <= inject_Z k -> 0 <= fl x <= inject_Z k.
Proof.
  intros Hk [H0 H1]. split; [now apply fl_nonneg|now apply fl_le_Z].
Qed.

Lemma mul_within (k : Z) (a w : num) :
  (0 <= k < 2 ^ 53)%Z -> within k a -> within 1 w -> within k (Py.mul a w).
Proof.
  intros Hk Ha Hw.
  pose proof (to_float_within k a ltac:(lia) Ha) as Fa.
  pose proof (to_float_within 1 w ltac:(lia) Hw) as Fw.
  assert (F : 0 <= Py.to_float a * Py.to_float w <= inject_Z k).
  { split; [apply Qmult_le_0_compat; tauto|].
    rewrite <- (Qmult_1_r (inject_Z k)).
    now apply Qmult_le_compat_nonneg. }
  destruct a as [x|x], w as [y|y]; try (now apply fl_within).
  simpl in *. nia.
Qed.

Lemma sub_within (w : num) : within 1 w -> within 1 (Py.sub (Int 1) w).
Proof.
  destruct w as [y|y]; cbn [within Py.sub Py.to_float]; [lia|].
  intros [H0 H1].
  rewrite (fl_Z 1) by lia. apply fl_within; [lia|].
  change (inject_Z 1) with 1 in *. split; lra.
Qed.

Lemma rne_within (x : Q) (k : Z) :
  0 <= x <= inject_Z k -> (0 <= rne x <= k)%Z.
Proof.
  intros [H0 H1]. split.
  - rewrite <- (rne_Z 0). now apply rne_mono.
  - rewrite <- (rne_Z k). now apply rne_mono.
Qed.

Lemma half_within (x : Q) (k : Z) :
  0 <= x <= inject_Z (k + k) -> 0 <= x / inject_Z 2 <= inject_Z k.
Proof.
  intros [H0 H1]. rewrite inject_Z_plus in H1. split.
  - apply Qle_shift_div_l; [reflexivity|]. now rewrite Qmult_0_l.
  - apply Qle_shift_div_r; [reflexivity|].
    change (inject_Z 2) with 2. lra.
Qed.

(** The average of two channels is a channel. *)
Lemma average_within (k : Z) (a b : num) :
  (0 <= k < 2 ^ 52)%Z -> within k a -> within k b ->
  (0 <= average a b <= k)%Z.
Proof.
  intros Hk Ha Hb.
  assert (Hk2 : (0 <= k + k < 2 ^ 53)%Z).
  { change (2 ^ 53)%Z with (2 ^ 52 + 2 ^ 52)%Z. lia. }
  pose proof (to_float_within k a ltac:(lia) Ha) as Fa.
  pose proof (to_float_within k b ltac:(lia) Hb) as Fb.
  assert (Hsum : 0 <= fl (Py.to_float a + Py.to_float b)
                 <= inject_Z (k + k)).
  { apply fl_within; [exact Hk2|]. rewrite inject_Z_plus. split; lra. }
  assert (Hhalf : (0 <= rne (fl (fl (Py.to_float a + Py.to_float b)
                                 / inject_Z 2)) <= k)%Z).
  { apply rne_within, fl_within; [lia|]. now apply half_within. }
  unfold average.
  destruct a as [x|x], b as [y|y];
    cbn [Py.add Py.truediv Py.round];
    try (cbn [Py.to_float] in *; rewrite (fl_Z 2) by lia; exact Hhalf).
  cbn [within] in Ha, Hb.
  apply rne_within, fl_within; [lia|]. apply half_within.
  split; [apply inject_Z_nonneg; lia|]. rewrite <- Zle_Qle. lia.
Qed.

(** A weight above 0 and at most 1 counts as given. *)
Lemma weight_within (w : num) :
  0 < Py.to_float w <= 1 -> within 1 w /\ Py.truthy (Some w) = true.
Proof.
  destruct w as [z|x]; cbn [Py.to_float within Py.truthy Py.is_zero];
    intros [H0 H1].
  - assert (Hz : (0 < z < 2)%Z).
    { split; apply Z.nle_gt; intros Hc.
      - rewrite Zle_Qle in Hc. apply fl_mono in Hc.
        change (fl (inject_Z 0)) with (fl 0) in Hc. rewrite fl_0 in Hc. lra.
      - rewrite Zle_Qle in Hc. apply fl_mono in Hc.
        rewrite (fl_Z 2) in Hc by lia.
        change (inject_Z 2) with 2 in Hc. lra. }
    split; [lia|]. apply negb_true_iff, Z.eqb_neq. lia.
  - split; [split; [lra|exact H1]|].
    apply negb_true_iff, not_true_iff_false. intros Hc.
    apply Qeq_bool_iff in Hc. lra.
Qed.

Lemma mix_color_given (c1 c2 : Color) (w : num) :
  Py.truthy (Some w) = true ->
  mix_color c1 c2 (Some w) = mixColor_spec c1 c2 (Some w).
Proof. intros H. unfold mix_color, mixColor_spec. now rewrite H. Qed.

Lemma nums_within (r g b : Z) :
  valid_color (r, g, b) ->
  within 255 (Int r) /\ within 255 (Int g) /\ within 255 (Int b).
Proof. exact (fun H => H). Qed.

Lemma mixColor_spec_valid (c1 c2 : Color) (w : option num) :
  valid_color c1 -> valid_color c2 ->
  match w with Some w => within 1 w | None => True end ->
  valid_color (mixColor_spec c1 c2 w).
Proof.
  destruct c1 as [[r1 g1] b1], c2 as [[r2 g2] b2].
  intros (R1 & G1 & B1) (R2 & G2 & B2) Hw.
  assert (K : (0 <= 255 < 2 ^ 52)%Z) by (split; [discriminate|reflexivity]).
  assert (K' : (0 <= 255 < 2 ^ 53)%Z) by (split; [discriminate|reflexivity]).
  unfold mixColor_spec, valid_color.
  destruct w as [w|]; cbn [nums scale Py.int].
  - pose proof (sub_within w Hw) as Hw'.
    repeat split; apply (average_within 255); try exact K;
      apply mul_within; assumption.
  - repeat split; apply (average_within 255); assumption.
Qed.

Lemma scale_by_one (r : Z) :
  (0 <= r < 2 ^ 53)%Z -> Py.int (Py.mul (Int r) (Float (fl 1))) = r.
Proof.
  intros Hr. cbn [Py.mul Py.int Py.to_float].
  change (fl 1) with (fl (inject_Z 1)).
  rewrite (fl_Z 1), (fl_Z r) by lia.
  rewrite (fl_comp (inject_Z r * inject_Z 1) (inject_Z r)) by apply Qmult_1_r.
  rewrite fl_Z by exact Hr. apply Qtrunc_Z.
Qed.

Lemma scale_by_zero (r : Z) : Py.int (Py.mul (Int r) (Float (fl 0))) = 0%Z.
Proof.
  cbn [Py.mul Py.int Py.to_float]. rewrite fl_0.
  rewrite (fl_comp (fl (inject_Z r) * 0) 0) by apply Qmult_0_r.
  reflexivity.
Qed.

End MixerFacts.

(** ** The progress bar *)

Section RendererFacts.

Import Binary64Facts PyFacts DriverFacts.

Variable LED_BRIGHTNESS : Z.
Variable REVERSE : bool.

Lemma upper_bar_eq (n percent : Z) :
  upper_bar n percent
  = (Qred (bar n percent - inject_Z (Qtrunc (bar n percent))),
     inject_Z (Qtrunc (bar n percent))).
Proof. reflexivity. Qed.

Lemma bar_eq (n percent : Z) :
  bar n percent
  = fl (fl (inject_Z percent / inject_Z 100) * fl (inject_Z n)).
Proof. reflexivity. Qed.

Lemma whole_eq (n percent : Z) : whole n percent = Qtrunc (bar n percent).
Proof. unfold whole. rewrite upper_bar_eq. apply Qtrunc_Z. Qed.

Lemma positive_iff (x : Q) : Py.positive x = true <-> (0 < x)%Q.
Proof.
  unfold Py.positive. rewrite negb_true_iff, <- not_true_iff_false.
  rewrite Qle_bool_iff. split; intros H.
  - apply Qnot_le_lt, H.
  - apply Qlt_not_le, H.
Qed.

Lemma boundary_iff (n percent : Z) :
  boundary n percent = true
  <-> (inject_Z (Qtrunc (bar n percent)) < bar n percent)%Q.
Proof.
  unfold boundary. rewrite upper_bar_eq. cbn [fst]. rewrite positive_iff.
  rewrite Qred_correct. split; intros H; lra.
Qed.

Lemma bar_bounds (n percent : Z) :
  0 <= percent <= 100 -> 0 <= n < 2 ^ 53 ->
  (0 <= bar n percent <= inject_Z n)%Q.
Proof.
  intros Hp Hn. rewrite bar_eq. rewrite (fl_Z n Hn).
  assert (Hq0 : (0 <= inject_Z percent / inject_Z 100)%Q).
  { apply Qle_shift_div_l; [reflexivity|].
    rewrite Qmult_0_l. change 0%Q with (inject_Z 0). rewrite <- Zle_Qle. lia. }
  assert (Hq1 : (inject_Z percent / inject_Z 100 <= inject_Z 1)%Q).
  { apply Qle_shift_div_r; [reflexivity|].
    rewrite <- inject_Z_mult, <- Zle_Qle. lia. }
  pose proof (fl_nonneg _ Hq0) as H0.
  pose proof (fl_le_Z _ 1 ltac:(lia) Hq1) as H1.
  assert (Hn0 : (0 <= inject_Z n)%Q).
  { change 0%Q with (inject_Z 0). rewrite <- Zle_Qle. lia. }
  split.
  - apply fl_nonneg, Qmult_le_0_compat; assumption.
  - apply fl_le_Z; [exact Hn|].
    rewrite <- (Qmult_1_l (inject_Z n)) at 2.
    apply Qmult_le_compat_r; assumption.
Qed.

Lemma bar_mono (n p1 p2 : Z) :
  p1 <= p2 -> 0 <= n -> (bar n p1 <= bar n p2)%Q.
Proof.
  intros Hp Hn. rewrite !bar_eq. apply fl_mono.
  apply Qmult_le_compat_r.
  - apply fl_mono. apply Qmult_le_compat_r; [|discriminate].
    now rewrite <- Zle_Qle.
  - apply fl_nonneg. change 0%Q with (inject_Z 0). now rewrite <- Zle_Qle.
Qed.

Lemma whole_bounds (n percent : Z) :
  0 <= percent <= 100 -> 0 <= n < 2 ^ 53 ->
  0 <= whole n percent
  /\ whole n percent + (if boundary n percent then 1 else 0) <= n.
Proof.
  intros Hp Hn. destruct (bar_bounds n percent Hp Hn) as [H0 H1].
  pose proof (boundary_iff n percent) as HB.
  rewrite whole_eq. rewrite Qtrunc_floor in * by exact H0.
  split.
  - rewrite <- (Qfloor_Z 0). now apply Qfloor_resp_le.
  - destruct (boundary n percent).
    + assert (inject_Z (Qfloor (bar n percent)) < inject_Z n)%Q as H.
      { destruct HB as [HB _]. specialize (HB eq_refl).
        eapply Qlt_le_trans; eassumption. }
      rewrite <- Zlt_Qlt in H. lia.
    + rewrite Z.add_0_r.
      apply Z.le_trans with (Qfloor (inject_Z n));
        [now apply Qfloor_resp_le|rewrite Qfloor_Z; lia].
Qed.

(** *** The loops in closed form *)

Lemma fold_emit_decrement (f : Z -> call) (l : list Z) (p : painter) :
  fold_left (fun p i => decrement (emit p (f i))) l p
  = {| calls := calls p ++ map f l;
       pixels_remaining := pixels_remaining p - Z.of_nat (List.length l) |}.
Proof.
  revert p. induction l as [|a l IH]; intros [c r].
  - simpl. now rewrite app_nil_r, Z.sub_0_r.
  - cbn [fold_left]. rewrite IH. unfold decrement, emit. cbn [calls pixels_remaining].
    rewrite <- app_assoc. cbn [map List.length app]. f_equal. lia.
Qed.

Lemma fold_emit (f : Z -> call) (l : list Z) (p : painter) :
  fold_left (fun p i => emit p (f i)) l p
  = {| calls := calls p ++ map f l; pixels_remaining := pixels_remaining p |}.
Proof.
  revert p. induction l as [|a l IH]; intros [c r].
  - simpl. now rewrite app_nil_r.
  - cbn [fold_left]. rewrite IH. unfold emit. cbn [calls pixels_remaining].
    now rewrite <- app_assoc.
Qed.

Lemma fill_eq (n : Z) (c : Color) (w : float) (p : painter) :
  fill LED_BRIGHTNESS REVERSE n c w p
  = {| calls := calls p ++ whole_calls LED_BRIGHTNESS REVERSE n c (Py.int (Float w));
       pixels_remaining :=
         pixels_remaining p
         - Z.of_nat (List.length (Py.range (Py.int (Float w)))) |}.
Proof. unfold fill. now rewrite fold_emit_decrement. Qed.

Lemma rest_eq (n : Z) (c : Color) (p : painter) :
  rest LED_BRIGHTNESS REVERSE n c p
  = {| calls := calls p ++ rest_calls LED_BRIGHTNESS REVERSE n c (pixels_remaining p);
       pixels_remaining := pixels_remaining p |}.
Proof. unfold rest. now rewrite fold_emit. Qed.

(** [progress] makes the calls of its three parts, between setting the
    brightness and the flush. *)
Lemma progress_segments (n percent : Z) (base prog : Color) :
  progress LED_BRIGHTNESS REVERSE n percent base prog
  = SetBrightness LED_BRIGHTNESS
    :: whole_segment LED_BRIGHTNESS REVERSE n percent base prog
    ++ boundary_segment LED_BRIGHTNESS REVERSE n percent base prog
    ++ rest_segment LED_BRIGHTNESS REVERSE n percent base prog
    ++ [Show].
Proof.
  unfold whole_segment, boundary_segment, rest_segment.
  unfold progress, painted, segments.
  destruct (upper_bar n percent) as [rem wh].
  rewrite !fill_eq, !rest_eq. unfold tween, restart.
  destruct (Py.positive rem); cbn [calls pixels_remaining decrement emit];
    rewrite <- ?app_assoc; reflexivity.
Qed.

Lemma segments_eq (n percent : Z) (base prog : Color) :
  segments LED_BRIGHTNESS REVERSE n percent base prog
  = (whole_calls LED_BRIGHTNESS REVERSE n prog (whole n percent),
     if boundary n percent then
       boundary_calls LED_BRIGHTNESS REVERSE n
         (mix_color prog base (Some (Float (fst (upper_bar n percent)))))
         (whole n percent)
     else [],
     rest_calls LED_BRIGHTNESS REVERSE n base
       (n - Z.of_nat (Z.to_nat (whole n percent))
        - (if boundary n percent then 1 else 0))).
Proof.
  unfold segments, whole, boundary.
  destruct (upper_bar n percent) as [rem wh]. cbn [fst snd].
  rewrite fill_eq. unfold tween, restart. cbn [calls pixels_remaining app].
  rewrite range_length.
  destruct (Py.positive rem); rewrite rest_eq;
    cbn [calls pixels_remaining decrement emit app]; rewrite ?Z.sub_0_r;
    reflexivity.
Qed.

(** *** The indices written *)

Lemma written_whole (n w : Z) (c : Color) :
  written (whole_calls LED_BRIGHTNESS REVERSE n c w)
  = map (fun i => if REVERSE then n - 1 - i else i) (Py.range w).
Proof. apply written_map. Qed.

Lemma written_rest (n r : Z) (c : Color) :
  written (rest_calls LED_BRIGHTNESS REVERSE n c r)
  = map (fun i => if REVERSE then r - 1 - i else n - r + i) (Py.range r).
Proof. apply written_map. Qed.

(** [w] whole pixels, [b] boundary pixels ([0] or [1]) and the
    [n - w - b] pixels left are the pixels of the strip, met once each,
    from the far end down when [REVERSE] is set and from [0] up
    otherwise. *)
Lemma written_parts (n w : Z) (b : bool) (c1 c2 c3 : Color) :
  0 <= w -> w + (if b then 1 else 0) <= n ->
  written
    (whole_calls LED_BRIGHTNESS REVERSE n c1 w
     ++ (if b then boundary_calls LED_BRIGHTNESS REVERSE n c2 w else [])
     ++ rest_calls LED_BRIGHTNESS REVERSE n c3
          (n - w - (if b then 1 else 0)))
  = if REVERSE then rev (Py.range n) else Py.range n.
Proof.
  intros Hw Hn. rewrite !written_app, written_whole, written_rest.
  set (t := if b then 1 else 0) in *.
  set (r := n - w - t).
  assert (Ht : 0 <= t <= 1) by (unfold t; destruct b; lia).
  assert (Hr : 0 <= r) by (unfold r; lia).
  assert (En : n = w + (t + r)) by (unfold r; lia).
  assert (Eb : written
                 (if b then boundary_calls LED_BRIGHTNESS REVERSE n c2 w
                  else [])
               = map (fun i => if REVERSE then n - 1 - (w + i) else w + i)
                   (Py.range t)).
  { unfold t. destruct b; [|reflexivity].
    unfold boundary_calls, Py.range. change (Z.to_nat 1) with 1%nat.
    cbn [seq map written flat_map app Z.of_nat].
    destruct REVERSE; f_equal; lia. }
  rewrite Eb. clear Eb.
  destruct REVERSE.
  - rewrite rev_range, (f_equal Py.range En).
    rewrite (range_app w (t + r)), (range_app t r) by lia.
    rewrite !map_app, !map_map. do 2 f_equal.
    apply map_ext. intros i. lia.
  - rewrite (f_equal Py.range En).
    rewrite (range_app w (t + r)), (range_app t r) by lia.
    rewrite !map_app, !map_map, map_id. do 2 f_equal.
    apply map_ext. intros i. lia.
Qed.

(** The indices [progress] writes, for a percent of [0] to [100]. *)
Lemma progress_written (n percent : Z) (base prog : Color) :
  0 <= percent <= 100 -> 0 <= n < 2 ^ 53 ->
  written (progress LED_BRIGHTNESS REVERSE n percent base prog)
  = if REVERSE then rev (Py.range n) else Py.range n.
Proof.
  intros Hp Hn. destruct (whole_bounds n percent Hp Hn) as [Hw Hb].
  rewrite progress_segments.
  unfold whole_segment, boundary_segment, rest_segment.
  rewrite segments_eq. cbn [fst snd].
  rewrite Z2Nat.id by exact Hw.
  set (s1 := whole_calls _ _ _ _ _). set (s2 := if boundary _ _ then _ else _).
  set (s3 := rest_calls _ _ _ _ _).
  change (written (s1 ++ s2 ++ s3 ++ [Show])
          = if REVERSE then rev (Py.range n) else Py.range n).
  replace (s1 ++ s2 ++ s3 ++ [Show]) with ((s1 ++ s2 ++ s3) ++ [Show])
    by now rewrite <- !app_assoc.
  rewrite written_app. change (written [Show]) with (@nil Z).
  rewrite app_nil_r. now apply written_parts.
Qed.

(** *** The two ends of the bar *)

Lemma bar_0 (n : Z) : bar n 0 = 0%Q.
Proof.
  rewrite bar_eq. rewrite (fl_comp (inject_Z 0 / inject_Z 100) 0) by reflexivity.
  rewrite fl_0. transitivity (fl 0); [|exact fl_0].
  apply fl_comp. apply Qmult_0_l.
Qed.

Lemma bar_100 (n : Z) : 0 <= n < 2 ^ 53 -> bar n 100 = inject_Z n.
Proof.
  intros Hn. rewrite bar_eq.
  rewrite (fl_comp (inject_Z 100 / inject_Z 100) (inject_Z 1)) by reflexivity.
  rewrite !fl_Z by lia. rewrite <- (fl_Z n Hn) at 2.
  apply fl_comp. apply Qmult_1_l.
Qed.

Lemma whole_0 (n : Z) : whole n 0 = 0 /\ boundary n 0 = false.
Proof.
  split; [now rewrite whole_eq, bar_0|].
  apply not_true_iff_false. rewrite boundary_iff, bar_0. discriminate.
Qed.

Lemma whole_100 (n : Z) :
  0 <= n < 2 ^ 53 -> whole n 100 = n /\ boundary n 100 = false.
Proof.
  intros Hn. split; [now rewrite whole_eq, bar_100, Qtrunc_Z|].
  apply not_true_iff_false. rewrite boundary_iff, bar_100, Qtrunc_Z by exact Hn.
  apply Qlt_irrefl.
Qed.

(** At the two ends one part is left. *)
Lemma progress_0 (n : Z) (base prog : Color) :
  progress LED_BRIGHTNESS REVERSE n 0 base prog
  = SetBrightness LED_BRIGHTNESS
    :: rest_calls LED_BRIGHTNESS REVERSE n base n ++ [Show].
Proof.
  rewrite progress_segments.
  unfold whole_segment, boundary_segment, rest_segment.
  rewrite segments_eq. cbn [fst snd]. destruct (whole_0 n) as [-> ->].
  change (Z.to_nat 0) with O. cbn [Z.of_nat]. rewrite !Z.sub_0_r.
  reflexivity.
Qed.

Lemma progress_100 (n : Z) (base prog : Color) :
  0 <= n < 2 ^ 53 ->
  progress LED_BRIGHTNESS REVERSE n 100 base prog
  = SetBrightness LED_BRIGHTNESS
    :: whole_calls LED_BRIGHTNESS REVERSE n prog n ++ [Show].
Proof.
  intros Hn. rewrite progress_segments.
  unfold whole_segment, boundary_segment, rest_segment.
  rewrite segments_eq. cbn [fst snd]. destruct (whole_100 n Hn) as [-> ->].
  rewrite Z2Nat.id, Z.sub_0_r, Z.sub_diag by lia. reflexivity.
Qed.

(** A strip painted with one colour all over. *)
Lemma exec_paint_uniform (f : Z -> Z) (c : Color) (n : Z) (s : strip) :
  numPixels s = n ->
  (forall i, 0 <= i < n -> In i (map f (Py.range n))) ->
  exec s (SetBrightness LED_BRIGHTNESS
          :: map (fun i => SetPixelColorRGB (f i) c) (Py.range n) ++ [Show])
  = {| led_data := repeat c (Z.to_nat n);
       brightness := LED_BRIGHTNESS;
       frames := (repeat c (Z.to_nat n), LED_BRIGHTNESS) :: frames s |}.
Proof.
  intros Hs Hall. rewrite exec_paint by apply is_write_map.
  rewrite (exec_uniform c).
  - unfold numPixels in Hs. rewrite <- Hs, Nat2Z.id. reflexivity.
  - rewrite colours_map. apply Forall_forall. intros x Hx.
    now apply repeat_spec in Hx.
  - rewrite written_map, Hs. exact Hall.
Qed.

(** *** The number of lit pixels *)

Lemma lit_pixels_eq (n percent : Z) :
  lit_pixels LED_BRIGHTNESS REVERSE n percent
  = Z.of_nat (Z.to_nat (whole n percent))
    + (if boundary n percent then 1 else 0).
Proof.
  unfold lit_pixels, whole_segment, boundary_segment.
  rewrite segments_eq. cbn [fst snd]. unfold whole_calls.
  rewrite length_map, range_length.
  destruct (boundary n percent); cbn [List.length boundary_calls]; lia.
Qed.

Lemma lit_pixels_mono (n p1 p2 : Z) :
  0 <= n < 2 ^ 53 -> 0 <= p1 -> p1 <= p2 -> p2 <= 100 ->
  lit_pixels LED_BRIGHTNESS REVERSE n p1
  <= lit_pixels LED_BRIGHTNESS REVERSE n p2.
Proof.
  intros Hn H1 H12 H2. rewrite !lit_pixels_eq.
  destruct (bar_bounds n p1 ltac:(lia) Hn) as [Hb1 _].
  destruct (bar_bounds n p2 ltac:(lia) Hn) as [Hb2 _].
  pose proof (bar_mono n p1 p2 H12 ltac:(lia)) as Hm.
  pose proof (boundary_iff n p1) as B1.
  pose proof (boundary_iff n p2) as B2.
  rewrite !whole_eq. rewrite !Qtrunc_floor in * by assumption.
  pose proof (Qfloor_resp_le _ _ Hm) as Hf.
  assert (0 <= Qfloor (bar n p1)).
  { rewrite <- (Qfloor_Z 0). now apply Qfloor_resp_le. }
  rewrite !Z2Nat.id by lia.
  destruct (Z.eq_dec (Qfloor (bar n p1)) (Qfloor (bar n p2))) as [E|NE].
  - rewrite <- E in *.
    destruct (boundary n p1); [|destruct (boundary n p2); lia].
    destruct B1 as [B1 _]. specialize (B1 eq_refl).
    destruct (boundary n p2); [lia|].
    destruct B2 as [_ B2]. discriminate B2.
    eapply Qlt_le_trans; eassumption.
  - destruct (boundary n p1), (boundary n p2); lia.
Qed.

End RendererFacts.

(** ** The animations *)

Module AnimationFacts.

Import PyFacts DriverFacts.

Lemma chase_positions_length (n : Z) (reverse : bool) :
  List.length (chase_positions n reverse) = Z.to_nat (n + 1).
Proof.
  unfold chase_positions. destruct reverse;
    rewrite ?length_rev; apply range_length.
Qed.

Lemma chase_positions_in (n : Z) (reverse : bool) (i : Z) :
  In i (chase_positions n reverse) <-> 0 <= i <= n.
Proof.
  unfold chase_positions. destruct reverse;
    rewrite <- ?in_rev, in_range; lia.
Qed.

Lemma chase_positions_nth (n : Z) (reverse : bool) (k : nat) :
  Z.of_nat k <= n ->
  nth k (chase_positions n reverse) 0
  = if reverse then n - Z.of_nat k else Z.of_nat k.
Proof.
  intros Hk. unfold chase_positions. destruct reverse.
  - rewrite rev_range.
    rewrite (nth_indep _ 0 ((fun i => n + 1 - 1 - i) 0))
      by (rewrite length_map, range_length; lia).
    rewrite map_nth, range_nth by lia. lia.
  - apply range_nth. lia.
Qed.

Lemma chase_pass_written (n : Z) (c : Color) (i : Z) :
  written (chase_pass n c i) = Py.range n.
Proof.
  unfold chase_pass. induction (Py.range n) as [|a l IH]; [reflexivity|].
  cbn [flat_map]. rewrite written_app, IH. reflexivity.
Qed.

Lemma chase_pass_colours (n : Z) (c : Color) (i : Z) :
  colours (chase_pass n c i)
  = map (fun pixel => if i =? pixel then c else (0, 0, 0)) (Py.range n).
Proof.
  unfold chase_pass. induction (Py.range n) as [|a l IH]; [reflexivity|].
  cbn [flat_map]. rewrite colours_app, IH. reflexivity.
Qed.

(** One position past the last pixel: no pixel matches. *)
Lemma chase_pass_past_the_end (n : Z) (c : Color) :
  colours (chase_pass n c n) = repeat (0, 0, 0) (Z.to_nat n).
Proof.
  rewrite chase_pass_colours, <- range_length.
  assert (H : forall p, In p (Py.range n) -> p <> n)
    by (intros p Hp; apply in_range in Hp; lia).
  induction (Py.range n) as [|a l IH]; [reflexivity|].
  cbn [map List.length repeat]. rewrite IH by (intros p Hp; apply H; now right).
  replace (n =? a) with false; [reflexivity|].
  symmetry. apply Z.eqb_neq. intros E. apply (H a); [now left|auto].
Qed.

Lemma chase_pass_keeps_brightness (n : Z) (c : Color) (i : Z) :
  forallb keeps_brightness (chase_pass n c i) = true.
Proof. unfold chase_pass. now apply forallb_flat_map. Qed.

(** The last step of the down ramp of [fade]. *)
Lemma range_down_last (b : Z) :
  0 <= b -> Py.range_down b (-1) = Py.range_down b 0 ++ [0].
Proof.
  intros Hb. unfold Py.range_down.
  replace (Z.to_nat (b - -1)) with (S (Z.to_nat (b - 0))) by lia.
  rewrite seq_S, map_app. cbn [map Nat.add]. do 2 f_equal. lia.
Qed.

End AnimationFacts.

(* ================================================================== *)
(** * The properties of the specification *)
(* ================================================================== *)

(** C9. For a percent of 0 to 100 and a strip of at least one pixel (and
    of fewer than [2^53], the pixel counts a float holds exactly), one
    call of [progress] writes every pixel index from 0 to [n - 1] exactly
    once.  The calls are those of the whole pixels, of the boundary pixel
    (at most one) and of the pixels left to the base colour; the indices of
    the three parts, put end to end, have no repetition and are the indices
    of the strip: from the last one down when [REVERSE] is set, from 0 up
    otherwise. *)
Theorem progress_writes_each_pixel_once
    (LED_BRIGHTNESS : Z) (REVERSE : bool) (n percent : Z)
    (base_color progress_color : Color) :
  1 <= n < 2 ^ 53 -> 0 <= percent <= 100 ->
  let s1 := whole_segment LED_BRIGHTNESS REVERSE n percent base_color progress_color in
  let s2 := boundary_segment LED_BRIGHTNESS REVERSE n percent base_color progress_color in
  let s3 := rest_segment LED_BRIGHTNESS REVERSE n percent base_color progress_color in
  let t := progress LED_BRIGHTNESS REVERSE n percent base_color progress_color in
  t = SetBrightness LED_BRIGHTNESS :: s1 ++ s2 ++ s3 ++ [Show]
  /\ written t = written s1 ++ written s2 ++ written s3
  /\ (List.length s2 <= 1)%nat
  /\ NoDup (written s1 ++ written s2 ++ written s3)
  /\ (forall i, In i (written s1 ++ written s2 ++ written s3) <-> 0 <= i < n)
  /\ written t = if REVERSE then rev (Py.range n) else Py.range n.
Proof.
  intros Hn Hp s1 s2 s3 t.
  assert (Ht : t = SetBrightness LED_BRIGHTNESS :: s1 ++ s2 ++ s3 ++ [Show])
    by apply progress_segments.
  assert (Hw : written t = if REVERSE then rev (Py.range n) else Py.range n)
    by (apply progress_written; lia).
  assert (Hs : written t = written s1 ++ written s2 ++ written s3).
  { rewrite Ht. change (written (SetBrightness LED_BRIGHTNESS :: ?l)) with (written l).
    rewrite !DriverFacts.written_app. cbn [written flat_map app].
    now rewrite app_nil_r. }
  split; [exact Ht|]. split; [exact Hs|]. split.
  { unfold s2, boundary_segment. rewrite segments_eq. cbn [fst snd].
    destruct (boundary n percent); simpl; lia. }
  rewrite <- Hs, Hw. split; [|split; [|reflexivity]].
  - destruct REVERSE; [apply NoDup_rev|]; apply PyFacts.range_NoDup.
  - intros i. destruct REVERSE; [rewrite <- in_rev|]; apply PyFacts.in_range.
Qed.

Lemma progress_writes_each_pixel_once_witness :
  1 <= 10 < 2 ^ 53 /\ 0 <= 55 <= 100
  /\ NoDup (written (progress 100 true 10 55 (0, 0, 255) (255, 0, 0)))
  /\ written (progress 100 true 10 55 (0, 0, 255) (255, 0, 0))
     = rev (Py.range 10).
Proof.
  assert (H1 : 1 <= 10 < 2 ^ 53) by (split; [discriminate|reflexivity]).
  assert (H2 : 0 <= 55 <= 100) by (split; discriminate).
  split; [exact H1|]. split; [exact H2|].
  destruct (progress_writes_each_pixel_once 100 true 10 55
              (0, 0, 255) (255, 0, 0) H1 H2)
    as (_ & E & _ & N & _ & W).
  split; [|exact W]. rewrite E. exact N.
Defined.

(** C2. For a percent of 0 to 100 and a strip of at least one pixel (and
    of fewer than [2^53], the pixel counts a float holds exactly), every
    index [progress] writes is an index of the strip, whatever [REVERSE]
    is.  A percent of 0 gives no whole pixel and a percent of 100 gives [n]
    of them; when the number of whole pixels is [n], neither a boundary
    pixel nor a base pixel is written. *)
Theorem progress_indices_in_range
    (LED_BRIGHTNESS : Z) (REVERSE : bool) (n percent : Z)
    (base_color progress_color : Color) :
  1 <= n < 2 ^ 53 -> 0 <= percent <= 100 ->
  Forall (fun i => 0 <= i < n)
    (written (progress LED_BRIGHTNESS REVERSE n percent base_color progress_color))
  /\ whole n 0 = 0
  /\ whole n 100 = n
  /\ (whole n percent = n ->
      boundary_segment LED_BRIGHTNESS REVERSE n percent base_color progress_color = []
      /\ rest_segment LED_BRIGHTNESS REVERSE n percent base_color progress_color = []).
Proof.
  intros Hn Hp. split; [|split; [|split]].
  - rewrite progress_written by lia. apply Forall_forall. intros i Hi.
    destruct REVERSE; [apply in_rev in Hi|]; now apply PyFacts.in_range.
  - apply whole_0.
  - apply whole_100. lia.
  - intros Hw.
    destruct (whole_bounds n percent Hp ltac:(lia)) as [H0 Hb].
    unfold boundary_segment, rest_segment. rewrite segments_eq. cbn [fst snd].
    destruct (boundary n percent); [lia|]. split; [reflexivity|].
    rewrite Hw, Z2Nat.id, Z.sub_diag by lia. reflexivity.
Qed.

Lemma progress_indices_in_range_witness :
  1 <= 10 < 2 ^ 53 /\ 0 <= 100 <= 100
  /\ Forall (fun i => 0 <= i < 10)
       (written (progress 100 true 10 100 (0, 0, 0) (0, 255, 0)))
  /\ boundary_segment 100 true 10 100 (0, 0, 0) (0, 255, 0) = []
  /\ rest_segment 100 true 10 100 (0, 0, 0) (0, 255, 0) = [].
Proof.
  assert (H1 : 1 <= 10 < 2 ^ 53) by (split; [discriminate|reflexivity]).
  assert (H2 : 0 <= 100 <= 100) by (split; discriminate).
  split; [exact H1|]. split; [exact H2|].
  destruct (progress_indices_in_range 100 true 10 100
              (0, 0, 0) (0, 255, 0) H1 H2)
    as (F & _ & W & E).
  split; [exact F|]. exact (E W).
Defined.

(** C1 (as amended: every colour [progress] writes is brightness-corrected).
    For a strip of [n] pixels, [progress] at percent 0 leaves every pixel
    at the brightness-corrected base colour and at percent 100 leaves every
    pixel at the brightness-corrected progress colour, and flushes that
    frame; the number of pixels that are not left to the base colour is 0
    at percent 0, [n] at percent 100, and does not decrease when percent
    grows from 0 to 100.  For 10 pixels and percent 55 the bar is 5 whole
    pixels of the corrected progress colour, one boundary pixel holding the
    corrected mix of the two colours at weight 0.5, and 4 pixels of the
    corrected base colour. *)
Theorem progress_extremes_and_growth
    (LED_BRIGHTNESS : Z) (REVERSE : bool) (n : Z)
    (base_color progress_color : Color) (s : strip) :
  0 <= n < 2 ^ 53 -> numPixels s = n ->
  let cbc := color_brightness_correction LED_BRIGHTNESS in
  let painted c :=
    {| led_data := repeat c (Z.to_nat n);
       brightness := LED_BRIGHTNESS;
       frames := (repeat c (Z.to_nat n), LED_BRIGHTNESS) :: frames s |} in
  exec s (progress LED_BRIGHTNESS REVERSE n 0 base_color progress_color)
  = painted (cbc base_color)
  /\ exec s (progress LED_BRIGHTNESS REVERSE n 100 base_color progress_color)
     = painted (cbc progress_color)
  /\ lit_pixels LED_BRIGHTNESS REVERSE n 0 = 0
  /\ lit_pixels LED_BRIGHTNESS REVERSE n 100 = n
  /\ (forall p1 p2, 0 <= p1 -> p1 <= p2 -> p2 <= 100 ->
      lit_pixels LED_BRIGHTNESS REVERSE n p1
      <= lit_pixels LED_BRIGHTNESS REVERSE n p2)
  /\ segments LED_BRIGHTNESS REVERSE 10 55 base_color progress_color
     = (whole_calls LED_BRIGHTNESS REVERSE 10 progress_color 5,
        boundary_calls LED_BRIGHTNESS REVERSE 10
          (mix_color progress_color base_color (Some (Float (1 # 2)))) 5,
        rest_calls LED_BRIGHTNESS REVERSE 10 base_color 4)
  /\ colours (whole_segment LED_BRIGHTNESS REVERSE 10 55 base_color progress_color)
     = repeat (cbc progress_color) 5
  /\ colours (boundary_segment LED_BRIGHTNESS REVERSE 10 55 base_color progress_color)
     = [cbc (mix_color progress_color base_color (Some (Float (1 # 2))))]
  /\ colours (rest_segment LED_BRIGHTNESS REVERSE 10 55 base_color progress_color)
     = repeat (cbc base_color) 4.
Proof.
  intros Hn Hs cbc painted.
  assert (E55 : segments LED_BRIGHTNESS REVERSE 10 55 base_color progress_color
     = (whole_calls LED_BRIGHTNESS REVERSE 10 progress_color 5,
        boundary_calls LED_BRIGHTNESS REVERSE 10
          (mix_color progress_color base_color (Some (Float (1 # 2)))) 5,
        rest_calls LED_BRIGHTNESS REVERSE 10 base_color 4)).
  { rewrite segments_eq.
    replace (whole 10 55) with 5 by (vm_compute; reflexivity).
    replace (boundary 10 55) with true by (vm_compute; reflexivity).
    replace (fst (upper_bar 10 55)) with (1 # 2)%Q by (vm_compute; reflexivity).
    reflexivity. }
  refine (conj _ (conj _ (conj _ (conj _ (conj _ (conj E55 (conj _ (conj _ _)))))))).
  - rewrite progress_0. unfold rest_calls.
    apply exec_paint_uniform; [exact Hs|].
    intros i Hi. apply in_map_iff. destruct REVERSE.
    + exists (n - 1 - i). split; [lia|]. apply PyFacts.in_range. lia.
    + exists i. split; [lia|]. now apply PyFacts.in_range.
  - rewrite progress_100 by exact Hn. unfold whole_calls.
    apply exec_paint_uniform; [exact Hs|].
    intros i Hi. apply in_map_iff. destruct REVERSE.
    + exists (n - 1 - i). split; [lia|]. apply PyFacts.in_range. lia.
    + exists i. split; [lia|]. now apply PyFacts.in_range.
  - rewrite lit_pixels_eq. now destruct (whole_0 n) as [-> ->].
  - rewrite lit_pixels_eq. destruct (whole_100 n Hn) as [-> ->]. lia.
  - intros p1 p2 H1 H12 H2. now apply lit_pixels_mono.
  - unfold whole_segment. rewrite E55. reflexivity.
  - unfold boundary_segment. rewrite E55. reflexivity.
  - unfold rest_segment. rewrite E55. reflexivity.
Qed.

Lemma progress_extremes_and_growth_witness :
  0 <= 10 < 2 ^ 53 /\ numPixels Script.strip = 10
  /\ led_data
       (exec Script.strip
          (progress 100 true 10 0
             Script.HEATING_BASE_COLOR Script.HEATING_PROGRESS_COLOR))
     = repeat (0, 0, 100) 10
  /\ lit_pixels 100 true 10 55 <= lit_pixels 100 true 10 56.
Proof.
  assert (H1 : 0 <= 10 < 2 ^ 53) by (split; [discriminate|reflexivity]).
  assert (H2 : numPixels Script.strip = 10) by reflexivity.
  split; [exact H1|]. split; [exact H2|].
  destruct (progress_extremes_and_growth 100 true 10
              Script.HEATING_BASE_COLOR Script.HEATING_PROGRESS_COLOR
              Script.strip H1 H2)
    as (E0 & _ & _ & _ & M & _).
  split.
  - rewrite E0. vm_compute. reflexivity.
  - apply M; discriminate.
Defined.

(** C1 as stated fails: with the script's brightness of 100, [progress] at
    percent 0 leaves the pixels at the corrected base colour [(0, 0, 100)],
    not at the base colour [(0, 0, 255)]. *)
Lemma progress_zero_is_not_plain_base :
  led_data
    (exec Script.strip
       (progress Script.LED_BRIGHTNESS Script.REVERSE Script.LED_COUNT 0
          Script.HEATING_BASE_COLOR Script.HEATING_PROGRESS_COLOR))
  <> repeat Script.HEATING_BASE_COLOR (Z.to_nat Script.LED_COUNT).
Proof. vm_compute. discriminate. Qed.

(** C3, evaluated on the code at the weight 0.0.  [mix_color] takes the
    weight 0.0 for a weight that is not given: it returns the plain average
    of the two colours, [(128, 0, 0)] here, not the average of the first
    colour scaled by 0 and the second scaled by 1, which is [(0, 0, 0)]. *)
Theorem mix_color_zero_weight_is_ignored :
  mix_color (255, 0, 0) (0, 0, 0) (Some (Float 0%Q)) = (128, 0, 0)
  /\ mixColor_spec (255, 0, 0) (0, 0, 0) (Some (Float 0%Q)) = (0, 0, 0)
  /\ mix_color (255, 0, 0) (0, 0, 0) (Some (Float 0%Q))
     <> mixColor_spec (255, 0, 0) (0, 0, 0) (Some (Float 0%Q)).
Proof. vm_compute. repeat split; discriminate. Qed.

(** C4, evaluated on the code.  With the weight 1 (as [int] or [float])
    [mix_color] returns half of the first colour, and with the weight 0 it
    returns the plain average of the two colours. *)
Theorem mix_color_at_the_end_weights :
  mix_color (255, 0, 0) (0, 0, 255) (Some (Int 1)) = (128, 0, 0)
  /\ mix_color (255, 0, 0) (0, 0, 255) (Some (Float 1%Q)) = (128, 0, 0)
  /\ mix_color (255, 0, 0) (0, 0, 255) (Some (Int 0)) = (128, 0, 128)
  /\ mix_color (255, 0, 0) (0, 0, 255) (Some (Float 0%Q)) = (128, 0, 128).
Proof. vm_compute. repeat split. Qed.

(** C5. For a colour with channels of 0 to 255, the brightness correction
    is the identity when the brightness is 255, and gives the colour
    [(0, 0, 0)] when the brightness is 0. *)
Theorem brightness_correction_extremes (c : Color) :
  valid_color c ->
  color_brightness_correction 255 c = c
  /\ color_brightness_correction 0 c = (0, 0, 0).
Proof.
  destruct c as [[r g] b]. intros (Hr & Hg & Hb).
  assert (K : 255 < 2 ^ 53) by reflexivity.
  unfold color_brightness_correction.
  change (Py.truediv (Int 255) (Int 255))
    with (Float (fl (inject_Z 255 / inject_Z 255))).
  change (Py.truediv (Int 0) (Int 255))
    with (Float (fl (inject_Z 0 / inject_Z 255))).
  rewrite (Binary64Facts.fl_comp (inject_Z 255 / inject_Z 255) 1%Q) by reflexivity.
  rewrite (Binary64Facts.fl_comp (inject_Z 0 / inject_Z 255) 0%Q) by reflexivity.
  rewrite !MixerFacts.scale_by_one, !MixerFacts.scale_by_zero by lia.
  split; reflexivity.
Qed.

Lemma brightness_correction_extremes_witness :
  valid_color Script.STANDBY_COLOR
  /\ color_brightness_correction 255 Script.STANDBY_COLOR = Script.STANDBY_COLOR
  /\ color_brightness_correction 0 Script.STANDBY_COLOR = (0, 0, 0).
Proof.
  assert (V : valid_color Script.STANDBY_COLOR) by (cbv; intuition discriminate).
  split; [exact V|]. exact (brightness_correction_extremes _ V).
Defined.

(** C6. [heating_percent] returns 0 when the target is zero, whatever the
    temperature is; otherwise it returns the floor of
    [temperature / target * 100]; it never raises [ZeroDivisionError]. *)
Theorem heating_percent_guards_zero_target (temp : heater) :
  heating_percent temp
  = (if Py.is_zero (target temp) then Ok 0
     else Py.floor
            (Py.mul (Py.truediv (temperature temp) (target temp)) (Int 100)))
  /\ heating_percent temp <> Raise ZeroDivisionError
  /\ (forall current : num,
        heating_percent {| temperature := current; target := Float 0%Q |} = Ok 0)
  /\ (forall current : num,
        heating_percent {| temperature := current; target := Int 0 |} = Ok 0).
Proof.
  assert (E : heating_percent temp
    = (if Py.is_zero (target temp) then Ok 0
       else Py.floor
              (Py.mul (Py.truediv (temperature temp) (target temp)) (Int 100)))).
  { unfold heating_percent, Py.truediv_checked.
    destruct (Py.is_zero (target temp)); reflexivity. }
  split; [exact E|]. split; [|split; reflexivity].
  rewrite E. destruct (Py.is_zero (target temp)); [discriminate|].
  unfold Py.floor. destruct (Py.mul _ _) as [z|x]; [discriminate|].
  destruct (overflows x); discriminate.
Qed.

(** C8. Whatever the status API answers and wherever the loop of [run] is
    when the interrupt arrives, the handler writes the colour [(0, 0, 0)]
    at every index from 0 to [n - 1] and then flushes once: the pixel
    buffer is all off, and the last frame flushed, the only one the handler
    adds, is all off. *)
Theorem interrupt_leaves_strip_off
    (LED_BRIGHTNESS : Z) (REVERSE : bool) (strip : strip)
    (api : nat -> status) (queries interrupt : nat) :
  let n := numPixels strip in
  let all_off := repeat (0, 0, 0) (Z.to_nat n) in
  let before :=
    exec strip
      (firstn interrupt
         (main_loop LED_BRIGHTNESS REVERSE n queries api 0 Top)) in
  let final := run LED_BRIGHTNESS REVERSE strip api queries interrupt in
  written (on_interrupt n) = Py.range n
  /\ colours (on_interrupt n) = all_off
  /\ (exists writes, on_interrupt n = writes ++ [Show]
                     /\ forallb is_write writes = true)
  /\ led_data final = all_off
  /\ frames final = (all_off, brightness before) :: frames before.
Proof.
  intros n all_off before final. unfold final, run, on_interrupt.
  fold n. fold before.
  set (writes := map (fun i => SetPixelColorRGB i (0, 0, 0)) (Py.range n)).
  assert (Hw : forallb is_write writes = true)
    by apply DriverFacts.is_write_map.
  assert (Hc : colours writes = all_off).
  { unfold writes, all_off.
    rewrite (DriverFacts.colours_map (fun i => i)), PyFacts.range_length.
    reflexivity. }
  assert (Hi : written writes = Py.range n).
  { unfold writes. rewrite (DriverFacts.written_map (fun i => i)).
    apply map_id. }
  assert (Hl : led_data (exec before writes) = all_off).
  { rewrite (DriverFacts.exec_uniform (0, 0, 0)).
    - unfold before. rewrite DriverFacts.exec_length.
      unfold all_off, n, numPixels. now rewrite Nat2Z.id.
    - rewrite Hc. apply Forall_forall. intros x Hx.
      now apply repeat_spec in Hx.
    - unfold before. rewrite DriverFacts.exec_numPixels, Hi. intros i.
      apply PyFacts.in_range. }
  rewrite DriverFacts.written_app, DriverFacts.colours_app, Hc, Hi.
  cbn [written colours flat_map app]. rewrite !app_nil_r.
  split; [reflexivity|]. split; [reflexivity|].
  split; [now exists writes|].
  rewrite DriverFacts.exec_flush by exact Hw. cbn [led_data frames].
  rewrite Hl. split; reflexivity.
Qed.

(** C7. For a strip of [n] pixels, [chase] sets the brightness and then
    sweeps the lit position over the [n + 1] positions 0 to [n], in
    ascending order when not reversed and in descending order when
    reversed; every position writes every pixel.  The position [n] is one
    past the last pixel: it is the last position (the first when reversed),
    no pixel matches it, only the colour [(0, 0, 0)] is written and the
    whole strip is off afterwards. *)
Theorem chase_sweeps_one_past_the_end
    (LED_BRIGHTNESS : Z) (n : Z) (color : Color) (reverse : bool) :
  0 <= n ->
  let positions := chase_positions n reverse in
  chase LED_BRIGHTNESS n color reverse
  = SetBrightness LED_BRIGHTNESS :: flat_map (chase_pass n color) positions
  /\ List.length positions = Z.to_nat (n + 1)
  /\ (forall i, In i positions <-> 0 <= i <= n)
  /\ (forall k, (k <= Z.to_nat n)%nat ->
      nth k positions 0 = if reverse then n - Z.of_nat k else Z.of_nat k)
  /\ (forall i, written (chase_pass n color i) = Py.range n)
  /\ (forall i, colours (chase_pass n color i)
                = map (fun pixel => if i =? pixel then color else (0, 0, 0))
                    (Py.range n))
  /\ colours (chase_pass n color n) = repeat (0, 0, 0) (Z.to_nat n)
  /\ (forall s, numPixels s = n ->
      led_data (exec s (chase_pass n color n)) = repeat (0, 0, 0) (Z.to_nat n)).
Proof.
  intros Hn positions.
  split; [reflexivity|].
  split; [apply AnimationFacts.chase_positions_length|].
  split; [apply AnimationFacts.chase_positions_in|].
  split; [intros k Hk; apply AnimationFacts.chase_positions_nth; lia|].
  split; [intros i; apply AnimationFacts.chase_pass_written|].
  split; [intros i; apply AnimationFacts.chase_pass_colours|].
  split; [apply AnimationFacts.chase_pass_past_the_end|].
  intros s Hs. rewrite (DriverFacts.exec_uniform (0, 0, 0)).
  - unfold numPixels in Hs. now rewrite <- Hs, Nat2Z.id.
  - rewrite AnimationFacts.chase_pass_past_the_end.
    apply Forall_forall. intros x Hx. now apply repeat_spec in Hx.
  - rewrite AnimationFacts.chase_pass_written, Hs. intros i.
    apply PyFacts.in_range.
Qed.

Lemma chase_sweeps_one_past_the_end_witness :
  0 <= 10
  /\ chase_positions 10 false = [0; 1; 2; 3; 4; 5; 6; 7; 8; 9; 10]
  /\ chase_positions 10 true = [10; 9; 8; 7; 6; 5; 4; 3; 2; 1; 0]
  /\ List.length (chase_positions 10 true) = 11%nat
  /\ colours (chase_pass 10 Script.PAUSED_COLOR 10) = repeat (0, 0, 0) 10.
Proof.
  assert (H : 0 <= 10) by discriminate.
  split; [exact H|]. split; [reflexivity|]. split; [reflexivity|].
  destruct (chase_sweeps_one_past_the_end 100 10 Script.PAUSED_COLOR true H)
    as (_ & L & _ & _ & _ & _ & C & _).
  split; [exact L|exact C].
Defined.

(** C10. With a configured brightness above 0, a completed [fade] ends
    with the brightness set to 0 and flushed, and leaves the brightness of
    the strip at 0.  [progress] and [chase] set the brightness to
    [LED_BRIGHTNESS] before anything else and do not set it again, so
    after a [fade] every frame they flush is shown at [LED_BRIGHTNESS],
    which is not 0. *)
Theorem renders_after_fade_are_not_dark
    (LED_BRIGHTNESS : Z) (REVERSE : bool) (n : Z) (color : Color)
    (speed : string) (s : strip) :
  0 < LED_BRIGHTNESS ->
  let dark := exec s (fade LED_BRIGHTNESS n color speed) in
  (exists before pause,
     fade LED_BRIGHTNESS n color speed
     = before ++ [SetBrightness 0; Show; Sleep pause])
  /\ brightness dark = 0
  /\ (exists led shown, frames dark = (led, 0) :: shown)
  /\ (forall percent base_color progress_color,
        exists t,
          progress LED_BRIGHTNESS REVERSE n percent base_color progress_color
          = SetBrightness LED_BRIGHTNESS :: t
          /\ forallb keeps_brightness t = true
          /\ shown_at LED_BRIGHTNESS dark
               (exec dark
                  (progress LED_BRIGHTNESS REVERSE n percent
                     base_color progress_color)))
  /\ (forall c reverse,
        exists t,
          chase LED_BRIGHTNESS n c reverse = SetBrightness LED_BRIGHTNESS :: t
          /\ forallb keeps_brightness t = true
          /\ shown_at LED_BRIGHTNESS dark
               (exec dark (chase LED_BRIGHTNESS n c reverse)))
  /\ LED_BRIGHTNESS <> 0.
Proof.
  intros HB dark.
  assert (Hafter : forall t,
            forallb keeps_brightness t = true ->
            shown_at LED_BRIGHTNESS dark
              (exec dark (SetBrightness LED_BRIGHTNESS :: t))).
  { intros t Ht. rewrite DriverFacts.exec_cons.
    destruct (DriverFacts.exec_keeps_brightness t
                (step dark (SetBrightness LED_BRIGHTNESS)) Ht) as [_ H].
    exact H. }
  assert (Hfade : exists before pause,
            fade LED_BRIGHTNESS n color speed
            = before ++ [SetBrightness 0; Show; Sleep pause]).
  { unfold fade. rewrite AnimationFacts.range_down_last by lia.
    rewrite flat_map_app. cbn [flat_map]. rewrite app_nil_r, !app_assoc.
    eexists. eexists. reflexivity. }
  split; [exact Hfade|].
  destruct Hfade as (before & pause & E).
  assert (Hdark : dark
            = exec (exec s before) [SetBrightness 0; Show; Sleep pause]).
  { unfold dark. now rewrite E, DriverFacts.exec_app. }
  split; [now rewrite Hdark|].
  split; [rewrite Hdark; cbn; eauto|].
  split; [|split; [|lia]].
  - intros percent base_color progress_color.
    rewrite progress_segments. eexists. split; [reflexivity|].
    assert (Hk : forallb keeps_brightness
              (whole_segment LED_BRIGHTNESS REVERSE n percent base_color progress_color
               ++ boundary_segment LED_BRIGHTNESS REVERSE n percent base_color progress_color
               ++ rest_segment LED_BRIGHTNESS REVERSE n percent base_color progress_color
               ++ [Show]) = true).
    { unfold whole_segment, boundary_segment, rest_segment.
      rewrite segments_eq. cbn [fst snd]. rewrite !forallb_app.
      unfold whole_calls, rest_calls.
      destruct (boundary n percent);
        rewrite !DriverFacts.map_keeps_brightness; reflexivity. }
    split; [exact Hk|]. now apply Hafter.
  - intros c reverse. unfold chase. eexists. split; [reflexivity|].
    assert (Hk : forallb keeps_brightness
              (flat_map (chase_pass n c) (chase_positions n reverse)) = true).
    { apply DriverFacts.forallb_flat_map.
      apply AnimationFacts.chase_pass_keeps_brightness. }
    split; [exact Hk|]. now apply Hafter.
Qed.

Lemma renders_after_fade_are_not_dark_witness :
  0 < Script.LED_BRIGHTNESS
  /\ brightness
       (exec Script.strip
          (fade Script.LED_BRIGHTNESS Script.LED_COUNT
             Script.STANDBY_COLOR "slow")) = 0
  /\ Script.LED_BRIGHTNESS <> 0.
Proof.
  assert (H : 0 < Script.LED_BRIGHTNESS) by reflexivity.
  split; [exact H|].
  destruct (renders_after_fade_are_not_dark Script.LED_BRIGHTNESS
              Script.REVERSE Script.LED_COUNT Script.STANDBY_COLOR "slow"
              Script.strip H) as (_ & B & _ & _ & _ & N).
  split; [exact B|exact N].
Defined.

(* ================================================================== *)
(** * Further properties of the code *)
(* ================================================================== *)

(** ** Numbers and colours *)

Module NumberFacts.

Import Binary64Facts MixerFacts.

Local Open Scope Q_scope.

Lemma add_comm (a b : num) : Py.add a b = Py.add b a.
Proof.
  destruct a as [x|x], b as [y|y]; cbn [Py.add];
    try (f_equal; apply fl_comp, Qplus_comm).
  f_equal. apply Z.add_comm.
Qed.

Lemma pow2_nonzero (j : Z) : (0 <= j)%Z -> ~ inject_Z (2 ^ j) == 0.
Proof. intros Hj E. pose proof (pow2_pos j Hj). lra. Qed.

(** The half of an integer below [2^53] is a binary64 number. *)
Lemma fl_half (s : Z) :
  (0 <= s < 2 ^ 53)%Z -> fl (inject_Z s / inject_Z 2) == inject_Z s / inject_Z 2.
Proof.
  intros Hs. unfold fl.
  destruct (Qlt_le_dec (inject_Z s / inject_Z 2) 0) as [H|_].
  { exfalso. apply (Qlt_not_le _ _ H).
    apply Qle_shift_div_l; [reflexivity|]. rewrite Qmult_0_l.
    apply inject_Z_nonneg. lia. }
  pose proof (pow2_nonzero 1073 ltac:(lia)) as P.
  assert (U : inject_Z units == inject_Z (2 ^ 1073) * inject_Z 2).
  { rewrite <- inject_Z_mult. reflexivity. }
  unfold round_mag. rewrite Qred_correct.
  rewrite (round_units_comp _ (inject_Z (s * 2 ^ 1073))).
  - rewrite round_units_exact by lia. rewrite U, inject_Z_mult.
    field. exact P.
  - rewrite U, inject_Z_mult. field.
Qed.

Lemma rne_half (s : Z) : rne (inject_Z s / inject_Z 2) = half_even s.
Proof.
  unfold rne, half_even. rewrite <- Zdiv_Qdiv.
  pose proof (Z.div_mod s 2 ltac:(lia)) as Hd.
  pose proof (Z.mod_pos_bound s 2 ltac:(lia)) as Hm.
  rewrite (Zeven_mod s).
  assert (E : inject_Z s / inject_Z 2 - inject_Z (s / 2)
              == inject_Z (s mod 2) / inject_Z 2).
  { rewrite Hd at 1. rewrite inject_Z_plus, inject_Z_mult. field. }
  rewrite E.
  destruct (Z.eq_dec (s mod 2) 0) as [H0|H1].
  - rewrite H0. reflexivity.
  - replace (s mod 2)%Z with 1%Z by lia. reflexivity.
Qed.

Lemma average_ints (a b : Z) :
  (0 <= a + b < 2 ^ 53)%Z -> average (Int a) (Int b) = half_even (a + b).
Proof.
  intros H. unfold average. cbn [Py.add Py.truediv Py.round].
  rewrite (rne_comp _ _ (fl_half (a + b) H)). apply rne_half.
Qed.

Lemma half_even_between (a b : Z) :
  (Z.min a b <= half_even (a + b) <= Z.max a b)%Z.
Proof.
  unfold half_even.
  pose proof (Z.div_mod (a + b) 2 ltac:(lia)) as Hd.
  pose proof (Z.mod_pos_bound (a + b) 2 ltac:(lia)) as Hm.
  rewrite (Zeven_mod (a + b)).
  destruct (Z.eqb_spec ((a + b) mod 2) 0) as [E|E];
    [|destruct (Z.even ((a + b) / 2))]; lia.
Qed.

End NumberFacts.

(** X1. [average] does not depend on the order of its arguments, for
    [int]s and for [float]s. *)
Theorem average_commutative (num_a num_b : num) :
  average num_a num_b = average num_b num_a.
Proof. unfold average. now rewrite NumberFacts.add_comm. Qed.

(** X2. The average of two [int]s of 0 to [2^52] is the half of their
    sum, rounded to the even neighbour when the sum is odd; it lies
    between the two, and the average of a number with itself is that
    number. *)
Theorem average_of_ints_is_half_even (a b : Z) :
  0 <= a < 2 ^ 52 -> 0 <= b < 2 ^ 52 ->
  average (Int a) (Int b) = half_even (a + b)
  /\ Z.min a b <= average (Int a) (Int b) <= Z.max a b
  /\ average (Int a) (Int a) = a.
Proof.
  intros Ha Hb.
  assert (K : 2 ^ 53 = 2 ^ 52 + 2 ^ 52) by reflexivity.
  rewrite !NumberFacts.average_ints by lia.
  split; [reflexivity|]. split; [apply NumberFacts.half_even_between|].
  pose proof (NumberFacts.half_even_between a a). lia.
Qed.

Lemma average_of_ints_is_half_even_witness :
  0 <= 255 < 2 ^ 52 /\ 0 <= 0 < 2 ^ 52
  /\ average (Int 255) (Int 0) = 128
  /\ average (Int 255) (Int 255) = 255.
Proof.
  assert (Ha : 0 <= 255 < 2 ^ 52) by (split; [discriminate|reflexivity]).
  assert (Hb : 0 <= 0 < 2 ^ 52) by (split; [discriminate|reflexivity]).
  split; [exact Ha|]. split; [exact Hb|].
  destruct (average_of_ints_is_half_even 255 0 Ha Hb) as (E & _ & _).
  destruct (average_of_ints_is_half_even 255 255 Ha Ha) as (_ & _ & I).
  split; [rewrite E; reflexivity|exact I].
Defined.

Module ColourFacts.

Import Binary64Facts MixerFacts.

Local Open Scope Q_scope.

Lemma int_within (k : Z) (a : num) :
  (0 <= k < 2 ^ 53)%Z -> within k a -> (0 <= Py.int a <= k)%Z.
Proof.
  intros Hk. destruct a as [z|x]; cbn [within Py.int]; [auto|].
  intros [H0 H1]. rewrite Qtrunc_floor by exact H0. split.
  - rewrite <- (Qfloor_Z 0). now apply Qfloor_resp_le.
  - rewrite <- (Qfloor_Z k). now apply Qfloor_resp_le.
Qed.

(** The factor of the brightness correction. *)
Lemma factor_within (b : Z) :
  (0 <= b <= 255)%Z -> within 1 (Py.truediv (Int b) (Int 255)).
Proof.
  intros Hb. cbn [Py.truediv within]. apply fl_within; [lia|]. split.
  - apply Qle_shift_div_l; [reflexivity|]. rewrite Qmult_0_l.
    apply inject_Z_nonneg. lia.
  - apply Qle_shift_div_r; [reflexivity|].
    rewrite <- inject_Z_mult, <- Zle_Qle. lia.
Qed.

Lemma factor_mono (b1 b2 : Z) :
  (b1 <= b2)%Z ->
  Py.to_float (Py.truediv (Int b1) (Int 255))
  <= Py.to_float (Py.truediv (Int b2) (Int 255)).
Proof.
  intros H. cbn [Py.truediv Py.to_float]. apply fl_mono.
  apply Qmult_le_compat_r; [now rewrite <- Zle_Qle|discriminate].
Qed.

Lemma corrected_channel_within (b r : Z) :
  (0 <= b <= 255)%Z -> (0 <= r <= 255)%Z ->
  (0 <= Py.int (Py.mul (Int r) (Py.truediv (Int b) (Int 255))) <= r)%Z.
Proof.
  intros Hb Hr.
  assert (K : (255 < 2 ^ 53)%Z) by reflexivity.
  apply int_within; [lia|].
  apply mul_within; [lia|cbn [within]; lia|now apply factor_within].
Qed.

Lemma corrected_channel_mono (b1 b2 r : Z) :
  (0 <= b1 <= b2)%Z -> (b2 <= 255)%Z -> (0 <= r <= 255)%Z ->
  (Py.int (Py.mul (Int r) (Py.truediv (Int b1) (Int 255)))
   <= Py.int (Py.mul (Int r) (Py.truediv (Int b2) (Int 255))))%Z.
Proof.
  intros Hb1 Hb2 Hr.
  assert (K : (255 < 2 ^ 53)%Z) by reflexivity.
  pose proof (factor_mono b1 b2 ltac:(lia)) as Hm.
  pose proof (factor_within b1 ltac:(lia)) as [H10 _].
  cbn [Py.truediv Py.to_float Py.mul Py.int within] in *.
  rewrite (fl_Z r) by lia.
  assert (Hr0 : 0 <= inject_Z r) by (apply inject_Z_nonneg; lia).
  rewrite !Qtrunc_floor.
  - apply Qfloor_resp_le, fl_mono.
    rewrite !(Qmult_comm (inject_Z r)).
    now apply Qmult_le_compat_r.
  - apply fl_nonneg, Qmult_le_0_compat; [exact Hr0|].
    first [assumption|exact (Qle_trans _ _ _ H10 Hm)].
  - apply fl_nonneg, Qmult_le_0_compat; [exact Hr0|].
    first [assumption|exact (Qle_trans _ _ _ H10 Hm)].
Qed.

Lemma corrected_zero (b : Z) :
  Py.int (Py.mul (Int 0) (Py.truediv (Int b) (Int 255))) = 0%Z.
Proof.
  cbn [Py.truediv Py.to_float Py.mul Py.int].
  change (fl (inject_Z 0)) with (fl 0). rewrite fl_0.
  rewrite (fl_comp (0 * _) 0) by apply Qmult_0_l. reflexivity.
Qed.

(** The correction of a colour of the data model is one. *)
Lemma correction_valid (b : Z) (c : Color) :
  (0 <= b <= 255)%Z -> valid_color c ->
  valid_color (color_brightness_correction b c).
Proof.
  destruct c as [[r g] bl]. intros Hb (Hr & Hg & Hbl).
  pose proof (corrected_channel_within b r Hb Hr).
  pose proof (corrected_channel_within b g Hb Hg).
  pose proof (corrected_channel_within b bl Hb Hbl).
  unfold color_brightness_correction, valid_color. repeat split; lia.
Qed.

(** A percent computed from a fraction of 0 to 1. *)
Lemma floor_percent (q : Q) :
  0 <= q <= 1 ->
  Py.floor (Py.mul (Float q) (Int 100))
  = Ok (Qfloor (fl (q * inject_Z 100)))
  /\ (0 <= Qfloor (fl (q * inject_Z 100)) <= 100)%Z.
Proof.
  intros [H0 H1].
  assert (K : (0 <= 100 < 2 ^ 53)%Z) by (split; [discriminate|reflexivity]).
  assert (B : 0 <= fl (q * inject_Z 100) <= inject_Z 100).
  { apply fl_within; [exact K|]. split.
    - apply Qmult_le_0_compat; [exact H0|discriminate].
    - rewrite <- (Qmult_1_l (inject_Z 100)) at 2.
      apply Qmult_le_compat_r; [exact H1|discriminate]. }
  split.
  - cbn [Py.mul Py.to_float Py.floor]. rewrite (fl_Z 100) by exact K.
    replace (overflows (fl (q * inject_Z 100))) with false; [reflexivity|].
    symmetry. apply not_true_iff_false. unfold overflows.
    rewrite Qle_bool_iff, Qabs_pos by tauto. intros Hc.
    assert (inject_Z (2 ^ 1024) <= inject_Z 100) as Hc'
      by (eapply Qle_trans; [exact Hc|tauto]).
    rewrite <- Zle_Qle in Hc'. revert Hc'. apply Z.lt_nge. reflexivity.
  - destruct B as [B0 B1]. split.
    + rewrite <- (Qfloor_Z 0). now apply Qfloor_resp_le.
    + rewrite <- (Qfloor_Z 100). now apply Qfloor_resp_le.
Qed.

Lemma floor_percent_mono (q1 q2 : Q) :
  q1 <= q2 ->
  (Qfloor (fl (q1 * inject_Z 100)) <= Qfloor (fl (q2 * inject_Z 100)))%Z.
Proof.
  intros H. apply Qfloor_resp_le, fl_mono.
  apply Qmult_le_compat_r; [exact H|discriminate].
Qed.

Lemma floor_percent_one : Qfloor (fl (1 * inject_Z 100)) = 100%Z.
Proof.
  rewrite (fl_comp _ (inject_Z 100)) by apply Qmult_1_l.
  rewrite fl_Z by (split; [discriminate|reflexivity]). apply Qfloor_Z.
Qed.

End ColourFacts.

(** X3. Without a weight, [mix_color] of two colours with channels of 0
    to 255 is, channel by channel, the half of the sum rounded half to
    even: it lies between the two channels, does not depend on the order
    of the colours, and mixing a colour with itself gives it back. *)
Theorem mix_color_unweighted (colour1 colour2 : Color) :
  valid_color colour1 -> valid_color colour2 ->
  let mixed := mix_color colour1 colour2 None in
  mixed
  = (half_even (red colour1 + red colour2),
     half_even (green colour1 + green colour2),
     half_even (blue colour1 + blue colour2))
  /\ Z.min (red colour1) (red colour2) <= red mixed
     <= Z.max (red colour1) (red colour2)
  /\ Z.min (green colour1) (green colour2) <= green mixed
     <= Z.max (green colour1) (green colour2)
  /\ Z.min (blue colour1) (blue colour2) <= blue mixed
     <= Z.max (blue colour1) (blue colour2)
  /\ mix_color colour2 colour1 None = mixed
  /\ mix_color colour1 colour1 None = colour1.
Proof.
  destruct colour1 as [[r1 g1] b1], colour2 as [[r2 g2] b2].
  intros (R1 & G1 & B1) (R2 & G2 & B2) mixed.
  assert (K : 255 + 255 < 2 ^ 53) by reflexivity.
  assert (E : forall x1 x2 y1 y2 z1 z2,
            0 <= x1 <= 255 -> 0 <= x2 <= 255 -> 0 <= y1 <= 255 ->
            0 <= y2 <= 255 -> 0 <= z1 <= 255 -> 0 <= z2 <= 255 ->
            mix_color (x1, y1, z1) (x2, y2, z2) None
            = (half_even (x1 + x2), half_even (y1 + y2), half_even (z1 + z2))).
  { intros. unfold mix_color. cbn [nums Py.int].
    rewrite !NumberFacts.average_ints by lia. reflexivity. }
  unfold mixed. rewrite !E by assumption. cbn [red green blue fst snd].
  pose proof (NumberFacts.half_even_between r1 r2).
  pose proof (NumberFacts.half_even_between g1 g2).
  pose proof (NumberFacts.half_even_between b1 b2).
  pose proof (NumberFacts.half_even_between r1 r1).
  pose proof (NumberFacts.half_even_between g1 g1).
  pose proof (NumberFacts.half_even_between b1 b1).
  repeat (split; [solve [reflexivity|assumption]|]).
  split.
  - now rewrite (Z.add_comm r2), (Z.add_comm g2), (Z.add_comm b2).
  - repeat f_equal; lia.
Qed.

Lemma mix_color_unweighted_witness :
  valid_color Script.HEATING_PROGRESS_COLOR
  /\ valid_color Script.HEATING_BASE_COLOR
  /\ mix_color Script.HEATING_PROGRESS_COLOR Script.HEATING_BASE_COLOR None
     = (128, 0, 128).
Proof.
  assert (V1 : valid_color Script.HEATING_PROGRESS_COLOR)
    by (cbv; intuition discriminate).
  assert (V2 : valid_color Script.HEATING_BASE_COLOR)
    by (cbv; intuition discriminate).
  split; [exact V1|]. split; [exact V2|].
  destruct (mix_color_unweighted _ _ V1 V2) as (E & _).
  rewrite E. reflexivity.
Defined.

(** X19. For colours with channels of 0 to 255: with a weight above 0 and
    at most 1, [mix_color] scales the channels of the first colour by the
    weight and those of the second by one minus the weight and averages
    the scaled channels; without a weight it averages the channels as they
    are; the channels of the result are integers of 0 to 255. *)
Theorem mix_color_scales_then_averages (c1 c2 : Color) (w : num) :
  valid_color c1 -> valid_color c2 -> (0 < Py.to_float w <= 1)%Q ->
  mix_color c1 c2 (Some w) = mixColor_spec c1 c2 (Some w)
  /\ mix_color c1 c2 None = mixColor_spec c1 c2 None
  /\ valid_color (mix_color c1 c2 (Some w))
  /\ valid_color (mix_color c1 c2 None).
Proof.
  intros H1 H2 Hw. destruct (MixerFacts.weight_within w Hw) as [Hin Ht].
  rewrite (MixerFacts.mix_color_given c1 c2 w Ht).
  change (mix_color c1 c2 None) with (mixColor_spec c1 c2 None).
  split; [reflexivity|]. split; [reflexivity|].
  split; apply MixerFacts.mixColor_spec_valid; auto.
Qed.

Lemma mix_color_scales_then_averages_witness :
  valid_color (255, 0, 0) /\ valid_color (0, 0, 255)
  /\ (0 < Py.to_float (Float (1 # 2)) <= 1)%Q
  /\ mix_color (255, 0, 0) (0, 0, 255) (Some (Float (1 # 2)))
     = mixColor_spec (255, 0, 0) (0, 0, 255) (Some (Float (1 # 2)))
  /\ valid_color (mix_color (255, 0, 0) (0, 0, 255) (Some (Float (1 # 2)))).
Proof.
  assert (V1 : valid_color (255, 0, 0)) by (cbv; intuition discriminate).
  assert (V2 : valid_color (0, 0, 255)) by (cbv; intuition discriminate).
  assert (W : (0 < Py.to_float (Float (1 # 2)) <= 1)%Q)
    by (split; [reflexivity|discriminate]).
  split; [exact V1|]. split; [exact V2|]. split; [exact W|].
  destruct (mix_color_scales_then_averages _ _ _ V1 V2 W) as (E & _ & V & _).
  split; [exact E|exact V].
Defined.

(** X4. For a brightness of 0 to 255 and a colour with channels of 0 to
    255, the corrected colour has channels of 0 to 255, none above the
    channel it comes from; a lower brightness gives no brighter channel;
    and the colour [(0, 0, 0)] stays [(0, 0, 0)]. *)
Theorem brightness_correction_dims (lower LED_BRIGHTNESS : Z) (color : Color) :
  0 <= lower <= LED_BRIGHTNESS -> LED_BRIGHTNESS <= 255 ->
  valid_color color ->
  valid_color (color_brightness_correction LED_BRIGHTNESS color)
  /\ dimmer (color_brightness_correction LED_BRIGHTNESS color) color
  /\ dimmer (color_brightness_correction lower color)
       (color_brightness_correction LED_BRIGHTNESS color)
  /\ color_brightness_correction LED_BRIGHTNESS (0, 0, 0) = (0, 0, 0).
Proof.
  destruct color as [[r g] b]. intros Hl Hb (Hr & Hg & Hbl).
  pose proof (ColourFacts.corrected_channel_within LED_BRIGHTNESS r ltac:(lia) Hr).
  pose proof (ColourFacts.corrected_channel_within LED_BRIGHTNESS g ltac:(lia) Hg).
  pose proof (ColourFacts.corrected_channel_within LED_BRIGHTNESS b ltac:(lia) Hbl).
  pose proof (ColourFacts.corrected_channel_mono lower LED_BRIGHTNESS r Hl Hb Hr).
  pose proof (ColourFacts.corrected_channel_mono lower LED_BRIGHTNESS g Hl Hb Hg).
  pose proof (ColourFacts.corrected_channel_mono lower LED_BRIGHTNESS b Hl Hb Hbl).
  unfold color_brightness_correction, valid_color, dimmer.
  cbn [red green blue fst snd].
  rewrite !ColourFacts.corrected_zero.
  repeat split; try assumption; lia.
Qed.

Lemma brightness_correction_dims_witness :
  0 <= 50 <= 100 /\ 100 <= 255 /\ valid_color Script.STANDBY_COLOR
  /\ color_brightness_correction 100 Script.STANDBY_COLOR = (100, 0, 100)
  /\ dimmer (color_brightness_correction 50 Script.STANDBY_COLOR)
       (color_brightness_correction 100 Script.STANDBY_COLOR).
Proof.
  assert (H1 : 0 <= 50 <= 100) by (split; discriminate).
  assert (H2 : 100 <= 255) by discriminate.
  assert (V : valid_color Script.STANDBY_COLOR) by (cbv; intuition discriminate).
  split; [exact H1|]. split; [exact H2|]. split; [exact V|].
  destruct (brightness_correction_dims 50 100 _ H1 H2 V) as (_ & _ & D & _).
  split; [vm_compute; reflexivity|exact D].
Defined.

(** X5. For a heater with a target above 0 and a temperature of 0 to the
    target, [heating_percent] returns a percent of 0 to 100 and raises
    nothing; a higher temperature gives no lower percent, and a heater at
    its target reads 100. *)
Theorem heating_percent_in_range (cooler warmer goal : Q) :
  (0 <= cooler)%Q -> (cooler <= warmer)%Q -> (warmer <= goal)%Q ->
  (0 < goal)%Q ->
  exists p1 p2,
    heating_percent {| temperature := Float cooler; target := Float goal |}
    = Ok p1
    /\ heating_percent {| temperature := Float warmer; target := Float goal |}
       = Ok p2
    /\ 0 <= p1 /\ p1 <= p2 /\ p2 <= 100
    /\ heating_percent {| temperature := Float goal; target := Float goal |}
       = Ok 100.
Proof.
  intros H0 H1 H2 Hg.
  assert (Q : forall c, (0 <= c)%Q -> (c <= goal)%Q ->
            (0 <= fl (c / goal) <= 1)%Q).
  { intros c Hc0 Hc1.
    apply (MixerFacts.fl_within _ 1); [split; [discriminate|reflexivity]|].
    split.
    - apply Qle_shift_div_l; [exact Hg|]. now rewrite Qmult_0_l.
    - apply Qle_shift_div_r; [exact Hg|]. now rewrite Qmult_1_l. }
  assert (Z0 : Py.is_zero (Float goal) = false).
  { cbn [Py.is_zero]. apply not_true_iff_false. intros Hc.
    apply Qeq_bool_iff in Hc. lra. }
  assert (E : forall c,
            heating_percent {| temperature := Float c; target := Float goal |}
            = Py.floor (Py.mul (Float (fl (c / goal))) (Int 100))).
  { intros c. unfold heating_percent, Py.truediv_checked.
    cbn [target temperature]. rewrite Z0. reflexivity. }
  destruct (ColourFacts.floor_percent _ (Q cooler H0 ltac:(lra))) as [E1 [L1 _]].
  destruct (ColourFacts.floor_percent _ (Q warmer ltac:(lra) H2)) as [E2 [_ U2]].
  destruct (ColourFacts.floor_percent _ (Q goal ltac:(lra) ltac:(lra))) as [E3 _].
  eexists. eexists. rewrite !E, E1, E2, E3.
  split; [reflexivity|]. split; [reflexivity|].
  split; [exact L1|]. split; [|split; [exact U2|]].
  - apply ColourFacts.floor_percent_mono, Binary64Facts.fl_mono.
    apply Qmult_le_compat_r; [exact H1|].
    apply Qinv_le_0_compat. lra.
  - f_equal.
    rewrite (Binary64Facts.fl_comp (goal / goal) (inject_Z 1))
      by (change (inject_Z 1) with 1%Q; field; lra).
    rewrite Binary64Facts.fl_Z by (split; [discriminate|reflexivity]).
    apply ColourFacts.floor_percent_one.
Qed.

Lemma heating_percent_in_range_witness :
  (0 <= 20)%Q /\ (20 <= 45)%Q /\ (45 <= 60)%Q /\ (0 < 60)%Q
  /\ heating_percent {| temperature := Float 45%Q; target := Float 60%Q |} = Ok 75
  /\ exists p1 p2,
       heating_percent {| temperature := Float 20%Q; target := Float 60%Q |} = Ok p1
       /\ heating_percent {| temperature := Float 45%Q; target := Float 60%Q |}
          = Ok p2
       /\ p1 <= p2.
Proof.
  assert (H0 : (0 <= 20)%Q) by discriminate.
  assert (H1 : (20 <= 45)%Q) by discriminate.
  assert (H2 : (45 <= 60)%Q) by discriminate.
  assert (H3 : (0 < 60)%Q) by reflexivity.
  split; [exact H0|]. split; [exact H1|]. split; [exact H2|].
  split; [exact H3|]. split; [vm_compute; reflexivity|].
  destruct (heating_percent_in_range 20 45 60 H0 H1 H2 H3)
    as (p1 & p2 & E1 & E2 & _ & M & _).
  exists p1, p2. auto.
Defined.

(** X6. For a progress of 0 to 1, [printing_percent] returns a percent of
    0 to 100 and raises nothing; more progress gives no lower percent; a
    progress of 0 reads 0 and a progress of 1 reads 100, the value at
    which the loop of the printing phase ends. *)
Theorem printing_percent_in_range (answer later : status) (x y : Q) :
  display_progress answer = Float x -> display_progress later = Float y ->
  (0 <= x)%Q -> (x <= y)%Q -> (y <= 1)%Q ->
  exists p1 p2,
    printing_percent answer = Ok p1 /\ printing_percent later = Ok p2
    /\ 0 <= p1 /\ p1 <= p2 /\ p2 <= 100
    /\ ((x == 0)%Q -> p1 = 0) /\ ((y == 1)%Q -> p2 = 100).
Proof.
  intros Ex Ey H0 H1 H2. unfold printing_percent. rewrite Ex, Ey.
  destruct (ColourFacts.floor_percent x ltac:(split; lra)) as [E1 [L1 _]].
  destruct (ColourFacts.floor_percent y ltac:(split; lra)) as [E2 [_ U2]].
  eexists. eexists. rewrite E1, E2.
  split; [reflexivity|]. split; [reflexivity|].
  split; [exact L1|]. split; [now apply ColourFacts.floor_percent_mono|].
  split; [exact U2|]. split; intros E.
  - rewrite (Binary64Facts.fl_comp _ 0%Q) by (rewrite E; apply Qmult_0_l).
    reflexivity.
  - rewrite (Binary64Facts.fl_comp _ (1 * inject_Z 100)%Q) by now rewrite E.
    apply ColourFacts.floor_percent_one.
Qed.

Lemma printing_percent_in_range_witness :
  let idle := {| temperature := Float 0%Q; target := Float 0%Q |} in
  let at_ x :=
    {| state := "printing"; heater_bed := idle; extruder := idle;
       display_progress := Float x |} in
  (0 <= 1 # 4)%Q /\ (1 # 4 <= 1)%Q /\ (1 <= 1)%Q
  /\ printing_percent (at_ (1 # 4)%Q) = Ok 25
  /\ printing_percent (at_ 1%Q) = Ok 100.
Proof.
  intros idle at_.
  assert (H0 : (0 <= 1 # 4)%Q) by discriminate.
  assert (H1 : (1 # 4 <= 1)%Q) by discriminate.
  assert (H2 : (1 <= 1)%Q) by discriminate.
  split; [exact H0|]. split; [exact H1|]. split; [exact H2|].
  destruct (printing_percent_in_range (at_ (1 # 4)%Q) (at_ 1%Q) _ _
              eq_refl eq_refl H0 H1 H2)
    as (p1 & p2 & E1 & E2 & _ & _ & _ & _ & T).
  split; [vm_compute; reflexivity|].
  rewrite E2. f_equal. apply T. reflexivity.
Defined.

(** ** Floats that stay finite *)

Module FiniteFacts.

Import Binary64Facts MixerFacts.

Local Open Scope Q_scope.

(** Rounding commutes with the sign. *)
Lemma fl_opp (x : Q) : fl (- x) == - fl x.
Proof.
  unfold fl.
  destruct (Qlt_le_dec (- x) 0) as [H1|H1], (Qlt_le_dec x 0) as [H2|H2];
    rewrite ?Qred_correct.
  - exfalso. lra.
  - rewrite (round_mag_comp (- - x) x) by apply Qopp_involutive. reflexivity.
  - rewrite Qopp_involutive. reflexivity.
  - rewrite (round_mag_comp (- x) 0), (round_mag_comp x 0) by lra.
    reflexivity.
Qed.

(** Rounding keeps a float within a bound that is a float. *)
Lemma fl_bounded (x b : Q) :
  fl b == b -> - b <= x <= b -> - b <= fl x <= b.
Proof.
  intros Hb [H0 H1]. split.
  - assert (H : fl (- x) <= fl b) by (apply fl_mono; lra).
    rewrite fl_opp, Hb in H. lra.
  - rewrite <- Hb. now apply fl_mono.
Qed.

Lemma fl_2_47 : fl (inject_Z (2 ^ 47)) == inject_Z (2 ^ 47).
Proof. rewrite fl_Z; [reflexivity|]. split; [discriminate|reflexivity]. Qed.

Lemma fl_2_100 : fl (inject_Z (2 ^ 100)) == inject_Z (2 ^ 100).
Proof.
  unfold fl. destruct (Qlt_le_dec (inject_Z (2 ^ 100)) 0) as [H|_];
    [discriminate H|].
  unfold round_mag. rewrite Qred_correct.
  rewrite (round_units_comp _ (inject_Z (1 * 2 ^ (100 + 1074)))).
  - rewrite round_units_exact by (try split; try discriminate; reflexivity).
    unfold units. rewrite Z.mul_1_l, Z.pow_add_r, inject_Z_mult by discriminate.
    field. apply NumberFacts.pow2_nonzero. discriminate.
  - unfold units.
    rewrite Z.mul_1_l, Z.pow_add_r, inject_Z_mult by discriminate.
    reflexivity.
Qed.

(** A float of magnitude [2^100] at most is finite. *)
Lemma small_is_finite (x : Q) :
  - inject_Z (2 ^ 100) <= x <= inject_Z (2 ^ 100) -> overflows x = false.
Proof.
  intros H. apply not_true_iff_false. unfold overflows.
  rewrite Qle_bool_iff. intros Hc.
  apply Qabs_Qle_condition in H.
  assert (Hz : inject_Z (2 ^ 1024) <= inject_Z (2 ^ 100))
    by (eapply Qle_trans; eassumption).
  rewrite <- Zle_Qle in Hz. revert Hz. apply Z.lt_nge. reflexivity.
Qed.

(** The product of a float of magnitude [2^47] at most and a pixel
    count. *)
Lemma product_bounded (q m : Q) :
  - inject_Z (2 ^ 47) <= q <= inject_Z (2 ^ 47) ->
  0 <= m <= inject_Z (2 ^ 53) ->
  - inject_Z (2 ^ 100) <= q * m <= inject_Z (2 ^ 100).
Proof.
  intros [Hq0 Hq1] [Hm0 Hm1].
  assert (E : inject_Z (2 ^ 100) == inject_Z (2 ^ 47) * inject_Z (2 ^ 53))
    by (rewrite <- inject_Z_mult; reflexivity).
  rewrite E. destruct (Qlt_le_dec q 0) as [Hn|Hp].
  - assert (H : (- q) * m <= inject_Z (2 ^ 47) * inject_Z (2 ^ 53))
      by (apply Qmult_le_compat_nonneg; split; lra).
    assert (H' : 0 <= (- q) * m) by (apply Qmult_le_0_compat; lra).
    assert (H'' : 0 <= inject_Z (2 ^ 47) * inject_Z (2 ^ 53))
      by (apply Qmult_le_0_compat; discriminate).
    split; lra.
  - assert (H : q * m <= inject_Z (2 ^ 47) * inject_Z (2 ^ 53))
      by (apply Qmult_le_compat_nonneg; split; lra).
    assert (H' : 0 <= q * m) by (apply Qmult_le_0_compat; lra).
    assert (H'' : 0 <= inject_Z (2 ^ 47) * inject_Z (2 ^ 53))
      by (apply Qmult_le_0_compat; discriminate).
    split; lra.
Qed.

(** For a percent and a pixel count that floats hold exactly, the bar
    is a finite float: [int(upper_whole)] has a value. *)
Lemma bar_finite (n percent : Z) :
  (- 2 ^ 53 <= percent <= 2 ^ 53)%Z -> (0 <= n < 2 ^ 53)%Z ->
  overflows (bar n percent) = false.
Proof.
  intros Hp Hn. apply small_is_finite. rewrite bar_eq.
  apply fl_bounded; [apply fl_2_100|].
  apply product_bounded.
  - apply fl_bounded; [apply fl_2_47|].
    assert (K : (2 ^ 53 <= 100 * 2 ^ 47)%Z) by discriminate.
    split.
    + apply Qle_shift_div_l; [reflexivity|].
      change (- inject_Z (2 ^ 47)) with (inject_Z (- 2 ^ 47)).
      rewrite <- inject_Z_mult, <- Zle_Qle. lia.
    + apply Qle_shift_div_r; [reflexivity|].
      rewrite <- inject_Z_mult, <- Zle_Qle. lia.
  - rewrite fl_Z by exact Hn. split.
    + apply inject_Z_nonneg. lia.
    + rewrite <- Zle_Qle. lia.
Qed.

End FiniteFacts.

(** ** What a trace leaves on the strip *)

Module BufferFacts.

Import PyFacts DriverFacts.

Lemma nth_set_pixel_other (l : list Color) (n : Z) (c d : Color) (i : nat) :
  n <> Z.of_nat i -> nth i (set_pixel l n c) d = nth i l d.
Proof.
  intros H. unfold set_pixel. destruct (_ && _) eqn:E; [|reflexivity].
  apply andb_prop in E. destruct E as [E _]. apply Z.leb_le in E.
  apply nth_store_neq. lia.
Qed.

Lemma nth_set_pixel_same (l : list Color) (c d : Color) (i : nat) :
  (i < List.length l)%nat -> nth i (set_pixel l (Z.of_nat i) c) d = c.
Proof.
  intros H. unfold set_pixel.
  replace (_ && _) with true by (symmetry; apply andb_true_intro; lia).
  rewrite Nat2Z.id. now apply nth_store_eq.
Qed.

(** A pixel no call writes keeps its colour. *)
Lemma nth_exec_unwritten (t : list call) (s : strip) (i : nat) (d : Color) :
  ~ In (Z.of_nat i) (written t) ->
  nth i (led_data (exec s t)) d = nth i (led_data s) d.
Proof.
  revert s. induction t as [|e t IH]; intros s H; [reflexivity|].
  rewrite exec_cons.
  change (e :: t) with ([e] ++ t) in H. rewrite written_app in H.
  rewrite IH by (intros Hc; apply H, in_or_app; now right).
  destruct e as [b|n c| | | |]; try reflexivity.
  cbn [step led_data]. apply nth_set_pixel_other.
  intros ->. apply H, in_or_app. left. now left.
Qed.

(** In a trace that writes no pixel twice, a pixel holds the colour of
    its write. *)
Lemma nth_exec_write (t : list call) (s : strip) (i : nat) (c d : Color) :
  In (SetPixelColorRGB (Z.of_nat i) c) t ->
  NoDup (written t) ->
  (i < List.length (led_data s))%nat ->
  nth i (led_data (exec s t)) d = c.
Proof.
  intros Hin Hnd Hi. apply in_split in Hin. destruct Hin as (t1 & t2 & ->).
  change (SetPixelColorRGB (Z.of_nat i) c :: t2)
    with ([SetPixelColorRGB (Z.of_nat i) c] ++ t2) in *.
  rewrite !written_app in Hnd. cbn [written flat_map app] in Hnd.
  apply NoDup_remove_2 in Hnd.
  rewrite !exec_app. rewrite nth_exec_unwritten
    by (intros Hc; apply Hnd, in_or_app; now right).
  cbn [exec fold_left step led_data]. apply nth_set_pixel_same.
  now rewrite exec_length.
Qed.

(** The buffer after a trace that writes every pixel once. *)
Lemma exec_writes_all (t : list call) (s : strip) (f : Z -> Color) :
  NoDup (written t) ->
  (forall i, 0 <= i < numPixels s -> In (SetPixelColorRGB i (f i)) t) ->
  led_data (exec s t) = map f (Py.range (numPixels s)).
Proof.
  intros Hnd Hall. apply (nth_ext _ _ (f 0) (f 0)).
  - rewrite exec_length, length_map, range_length. unfold numPixels. lia.
  - intros i Hi. rewrite exec_length in Hi.
    rewrite map_nth, range_nth by (unfold numPixels; lia).
    apply nth_exec_write; auto. apply Hall. unfold numPixels. lia.
Qed.

End BufferFacts.

(** ** The bar of [progress] *)

Module BarFacts.

Import Binary64Facts PyFacts DriverFacts.

(** The calls of the three parts are pixel writes. *)
Lemma segments_are_writes (LB : Z) (REV : bool) (n percent : Z)
    (base prog : Color) :
  forallb is_write
    (whole_segment LB REV n percent base prog
     ++ boundary_segment LB REV n percent base prog
     ++ rest_segment LB REV n percent base prog) = true.
Proof.
  unfold whole_segment, boundary_segment, rest_segment.
  rewrite segments_eq. cbn [fst snd]. rewrite !forallb_app.
  unfold whole_calls, rest_calls.
  destruct (boundary n percent); rewrite !is_write_map; reflexivity.
Qed.

Lemma progress_shape (LB : Z) (REV : bool) (n percent : Z)
    (base prog : Color) :
  progress LB REV n percent base prog
  = SetBrightness LB
    :: (whole_segment LB REV n percent base prog
        ++ boundary_segment LB REV n percent base prog
        ++ rest_segment LB REV n percent base prog)
    ++ [Show].
Proof. rewrite progress_segments. now rewrite <- !app_assoc. Qed.

(** Truncation of a float that is not positive. *)
Lemma Qtrunc_nonpos (x : Q) :
  (x <= 0)%Q -> Qtrunc x <= 0 /\ (x <= inject_Z (Qtrunc x))%Q.
Proof.
  destruct x as [a d]. unfold Qle, Qtrunc. cbn [Qnum Qden inject_Z].
  rewrite Z.mul_0_l, !Z.mul_1_r. intros Ha.
  pose proof (Z.quot_rem' a (Z.pos d)) as E.
  assert (Hr : Z.rem a (Z.pos d) <= 0) by (apply Z.rem_nonpos; lia).
  assert (Hq : Z.quot a (Z.pos d) <= 0).
  { rewrite <- (Z.opp_involutive a), Z.quot_opp_l by lia.
    pose proof (Z.quot_pos (- a) (Z.pos d) ltac:(lia) ltac:(lia)). lia. }
  split; [exact Hq|]. rewrite (Z.mul_comm _ (Z.pos d)). lia.
Qed.

Lemma bar_nonpos (n percent : Z) :
  percent <= 0 -> 0 <= n -> (bar n percent <= 0)%Q.
Proof.
  intros Hp Hn. rewrite bar_eq. rewrite <- fl_0. apply fl_mono.
  assert (Hq : (fl (inject_Z percent / inject_Z 100) <= 0)%Q).
  { rewrite <- fl_0. apply fl_mono.
    apply Qle_shift_div_r; [reflexivity|]. rewrite Qmult_0_l.
    change 0%Q with (inject_Z 0). rewrite <- Zle_Qle. lia. }
  assert (Hf : (0 <= fl (inject_Z n))%Q).
  { apply fl_nonneg. change 0%Q with (inject_Z 0). now rewrite <- Zle_Qle. }
  rewrite <- (Qmult_0_l (fl (inject_Z n))).
  now apply Qmult_le_compat_r.
Qed.

Lemma whole_nonpos (n percent : Z) :
  percent <= 0 -> 0 <= n ->
  whole n percent <= 0 /\ boundary n percent = false.
Proof.
  intros Hp Hn. pose proof (bar_nonpos n percent Hp Hn) as Hb.
  destruct (Qtrunc_nonpos _ Hb) as [Ht Hx].
  split; [now rewrite whole_eq|].
  apply not_true_iff_false. rewrite boundary_iff. now apply Qle_not_lt.
Qed.

Lemma progress_nonpos (LB : Z) (REV : bool) (n p : Z) (base prog : Color) :
  p <= 0 -> 0 <= n ->
  progress LB REV n p base prog
  = SetBrightness LB :: rest_calls LB REV n base n ++ [Show].
Proof.
  intros Hp0 Hn. rewrite progress_segments.
  unfold whole_segment, boundary_segment, rest_segment.
  rewrite segments_eq. cbn [fst snd].
  destruct (whole_nonpos n p Hp0 Hn) as [Hw ->].
  unfold whole_calls. rewrite range_nonpos by exact Hw.
  replace (Z.to_nat (whole n p)) with O by lia.
  cbn [map app Z.of_nat]. rewrite !Z.sub_0_r. reflexivity.
Qed.

Lemma written_rest_in_range (LB : Z) (REV : bool) (n : Z) (base : Color) :
  Forall (fun i => 0 <= i < n) (written (rest_calls LB REV n base n)).
Proof.
  unfold rest_calls. rewrite written_map.
  apply Forall_forall. intros i Hi. apply in_map_iff in Hi.
  destruct Hi as (k & <- & Hk). apply in_range in Hk.
  destruct REV; lia.
Qed.

(** Below 100 percent, and below 0 too, [progress] stays on the strip. *)
Lemma progress_on_the_strip (LB : Z) (REV : bool) (n p : Z)
    (base prog : Color) :
  p <= 100 -> 0 <= n < 2 ^ 53 ->
  Forall (fun i => 0 <= i < n) (written (progress LB REV n p base prog)).
Proof.
  intros Hp Hn. destruct (Z_le_gt_dec p 0) as [H0|H0].
  - rewrite progress_nonpos by lia.
    change (SetBrightness LB :: ?l) with ([SetBrightness LB] ++ l).
    rewrite !written_app. cbn [written flat_map app]. rewrite app_nil_r.
    apply written_rest_in_range.
  - rewrite progress_written by lia. apply Forall_forall. intros i Hi.
    destruct REV; [apply in_rev in Hi|]; now apply in_range.
Qed.

(** The part of the boundary pixel that is lit is a weight of 0 to 1. *)
Lemma remainder_is_a_weight (n percent : Z) :
  boundary n percent = true ->
  (0 < Py.to_float (Float (fst (upper_bar n percent))) <= 1)%Q.
Proof.
  intros Hb. pose proof Hb as Hlt. rewrite boundary_iff in Hlt.
  rewrite upper_bar_eq. cbn [fst Py.to_float]. rewrite Qred_correct.
  split; [lra|].
  destruct (Qlt_le_dec (bar n percent) 0) as [Hneg|Hpos].
  - destruct (Qtrunc_nonpos (bar n percent)) as [_ Hx]; lra.
  - rewrite Qtrunc_floor by exact Hpos.
    pose proof (Qlt_floor (bar n percent)) as Hf.
    rewrite inject_Z_plus in Hf. change (inject_Z 1) with 1%Q in Hf. lra.
Qed.

(** With colours of the data model and a brightness of 0 to 255,
    [progress] writes colours of the data model. *)
Lemma progress_colours_valid (LB : Z) (REV : bool) (n percent : Z)
    (base prog : Color) :
  0 <= LB <= 255 -> valid_color base -> valid_color prog ->
  Forall valid_color
    (colours
       (whole_segment LB REV n percent base prog
        ++ boundary_segment LB REV n percent base prog
        ++ rest_segment LB REV n percent base prog)).
Proof.
  intros Hb Hbase Hprog.
  assert (R : forall c k, valid_color c -> Forall valid_color (repeat c k)).
  { intros c k Hc. apply Forall_forall. intros x Hx.
    now rewrite (repeat_spec _ _ _ Hx). }
  unfold whole_segment, boundary_segment, rest_segment.
  rewrite segments_eq. cbn [fst snd]. rewrite !colours_app.
  unfold whole_calls, rest_calls. rewrite !colours_map.
  apply Forall_app. split; [|apply Forall_app; split].
  - apply R. now apply ColourFacts.correction_valid.
  - destruct (boundary n percent) eqn:Eb; [|constructor].
    cbn [boundary_calls colours flat_map app]. constructor; [|constructor].
    apply ColourFacts.correction_valid; [exact Hb|].
    destruct (MixerFacts.weight_within _ (remainder_is_a_weight n percent Eb))
      as [Hin Ht].
    rewrite (MixerFacts.mix_color_given _ _ _ Ht).
    now apply MixerFacts.mixColor_spec_valid.
  - apply R. now apply ColourFacts.correction_valid.
Qed.

Lemma progress_writes_valid_colours (LB : Z) (REV : bool) (n percent : Z)
    (base prog : Color) :
  0 <= LB <= 255 -> valid_color base -> valid_color prog ->
  Forall valid_color (colours (progress LB REV n percent base prog)).
Proof.
  intros Hb Hbase Hprog. rewrite progress_shape.
  change (SetBrightness LB :: ?l) with ([SetBrightness LB] ++ l).
  rewrite colours_app, (colours_app _ [Show]).
  cbn [colours flat_map app]. rewrite app_nil_r.
  now apply progress_colours_valid.
Qed.

End BarFacts.

(** X10. A percent of [-2^53] to 0 is drawn as the percent 0, on a strip
    of [n] pixels, with a brightness setting of 0 to 255 and a base colour
    with channels of 0 to 255: the bar is a finite float that is not
    positive, the calls of [progress] are those of the percent 0, and every
    pixel of the strip is written with the corrected base colour, a colour
    with channels of 0 to 255. *)
Theorem progress_of_a_negative_percent_is_empty
    (LED_BRIGHTNESS : Z) (REVERSE : bool) (n percent : Z)
    (base_color progress_color : Color) :
  - 2 ^ 53 <= percent <= 0 -> 0 <= n < 2 ^ 53 ->
  0 <= LED_BRIGHTNESS <= 255 -> valid_color base_color ->
  overflows (bar n percent) = false
  /\ (bar n percent <= 0)%Q
  /\ progress LED_BRIGHTNESS REVERSE n percent base_color progress_color
     = progress LED_BRIGHTNESS REVERSE n 0 base_color progress_color
  /\ colours
       (progress LED_BRIGHTNESS REVERSE n percent base_color progress_color)
     = repeat (color_brightness_correction LED_BRIGHTNESS base_color)
         (Z.to_nat n)
  /\ valid_color (color_brightness_correction LED_BRIGHTNESS base_color)
  /\ Forall (fun i => 0 <= i < n)
       (written
          (progress LED_BRIGHTNESS REVERSE n percent base_color progress_color)).
Proof.
  intros Hp Hn Hb Hbase.
  split; [apply FiniteFacts.bar_finite; [lia|exact Hn]|].
  split; [apply BarFacts.bar_nonpos; lia|].
  assert (E : forall p, p <= 0 ->
            progress LED_BRIGHTNESS REVERSE n p base_color progress_color
            = SetBrightness LED_BRIGHTNESS
              :: rest_calls LED_BRIGHTNESS REVERSE n base_color n ++ [Show])
    by (intros p Hp0; apply BarFacts.progress_nonpos; lia).
  rewrite (E percent (proj2 Hp)), (E 0 ltac:(lia)).
  split; [reflexivity|].
  change (SetBrightness LED_BRIGHTNESS :: ?l)
    with ([SetBrightness LED_BRIGHTNESS] ++ l).
  rewrite !DriverFacts.colours_app, !DriverFacts.written_app.
  cbn [colours written flat_map app]. rewrite !app_nil_r.
  unfold rest_calls.
  rewrite DriverFacts.colours_map, DriverFacts.written_map,
    PyFacts.range_length.
  split; [reflexivity|].
  split; [now apply ColourFacts.correction_valid|].
  apply Forall_forall. intros i Hi. apply in_map_iff in Hi.
  destruct Hi as (k & <- & Hk). apply PyFacts.in_range in Hk.
  destruct REVERSE; lia.
Qed.

Lemma progress_of_a_negative_percent_is_empty_witness :
  - 2 ^ 53 <= -15 <= 0 /\ 0 <= 10 < 2 ^ 53 /\ 0 <= 100 <= 255
  /\ valid_color (0, 0, 255)
  /\ progress 100 true 10 (-15) (0, 0, 255) (255, 0, 0)
     = progress 100 true 10 0 (0, 0, 255) (255, 0, 0).
Proof.
  assert (H1 : - 2 ^ 53 <= -15 <= 0) by (split; discriminate).
  assert (H2 : 0 <= 10 < 2 ^ 53) by (split; [discriminate|reflexivity]).
  assert (H3 : 0 <= 100 <= 255) by (split; discriminate).
  assert (H4 : valid_color (0, 0, 255)) by (repeat split; discriminate).
  refine (conj H1 (conj H2 (conj H3 (conj H4 _)))).
  exact (proj1 (proj2 (proj2
           (progress_of_a_negative_percent_is_empty 100 true 10 (-15)
              (0, 0, 255) (255, 0, 0) H1 H2 H3 H4)))).
Defined.

Module BarBufferFacts.

Import PyFacts DriverFacts BarFacts.

(** Every pixel has its write among the calls of the three parts. *)
Lemma bar_write (LB : Z) (REV : bool) (n percent : Z) (base prog : Color)
    (i : Z) :
  0 <= percent <= 100 -> 0 <= n < 2 ^ 53 -> 0 <= i < n ->
  In (SetPixelColorRGB i
        (bar_pixel LB n percent base prog (if REV then n - 1 - i else i)))
     (progress LB REV n percent base prog).
Proof.
  intros Hp Hn Hi. rewrite progress_shape. right. apply in_or_app. left.
  unfold whole_segment, boundary_segment, rest_segment.
  rewrite segments_eq. cbn [fst snd].
  destruct (whole_bounds n percent Hp Hn) as [Hw Hb].
  rewrite Z2Nat.id by exact Hw.
  set (d := if REV then n - 1 - i else i).
  assert (Hd : 0 <= d < n) by (unfold d; destruct REV; lia).
  assert (Ei : i = if REV then n - 1 - d else d)
    by (unfold d; destruct REV; lia).
  unfold bar_pixel.
  destruct (Z.ltb_spec d (whole n percent)) as [Hlt|Hge].
  - apply in_or_app. left. unfold whole_calls. apply in_map_iff.
    exists d. split; [|apply in_range; lia].
    f_equal. destruct REV; lia.
  - apply in_or_app. right.
    destruct (Z.eqb_spec d (whole n percent)) as [Heq|Hne];
      destruct (boundary n percent) eqn:B; cbn [andb].
    + apply in_or_app. left. unfold boundary_calls. left.
      f_equal. destruct REV; lia.
    + cbn [app]. unfold rest_calls. apply in_map_iff.
      exists (d - whole n percent). split; [|apply in_range; lia].
      f_equal. destruct REV; lia.
    + apply in_or_app. right. unfold rest_calls. apply in_map_iff.
      exists (d - (whole n percent + 1)). split; [|apply in_range; lia].
      f_equal. destruct REV; lia.
    + cbn [app]. unfold rest_calls. apply in_map_iff.
      exists (d - whole n percent). split; [|apply in_range; lia].
      f_equal. destruct REV; lia.
Qed.

(** The pixel buffer after [progress]. *)
Lemma progress_buffer (LB : Z) (REV : bool) (n percent : Z)
    (base prog : Color) (s : strip) :
  0 <= percent <= 100 -> 0 <= n < 2 ^ 53 -> numPixels s = n ->
  led_data (exec s (progress LB REV n percent base prog))
  = bar_pixels LB REV n percent base prog.
Proof.
  intros Hp Hn Hs. unfold bar_pixels. subst n.
  apply (BufferFacts.exec_writes_all _ s
           (fun i => bar_pixel LB (numPixels s) percent base prog
                       (if REV then numPixels s - 1 - i else i))).
  - rewrite progress_written by assumption.
    destruct REV; [apply NoDup_rev|]; apply range_NoDup.
  - intros i Hi. now apply bar_write.
Qed.

Lemma bar_pixels_mirror (LB : Z) (n percent : Z) (base prog : Color) :
  bar_pixels LB true n percent base prog
  = rev (bar_pixels LB false n percent base prog).
Proof.
  unfold bar_pixels. rewrite <- map_rev, rev_range, map_map. reflexivity.
Qed.

End BarBufferFacts.

(** X8. For a percent of 0 to 100 on a strip of [n] pixels, [progress]
    leaves the bar on the strip and flushes it: counted from the end the
    bar starts at (index 0, or the last index when [REVERSE] is set), the
    pixels before the number of whole pixels hold the corrected progress
    colour, the next one holds the corrected mix when there is a
    remainder, and all others hold the corrected base colour. *)
Theorem progress_draws_the_bar
    (LED_BRIGHTNESS : Z) (REVERSE : bool) (n percent : Z)
    (base_color progress_color : Color) (s : strip) :
  0 <= percent <= 100 -> 0 <= n < 2 ^ 53 -> numPixels s = n ->
  exec s (progress LED_BRIGHTNESS REVERSE n percent base_color progress_color)
  = {| led_data :=
         bar_pixels LED_BRIGHTNESS REVERSE n percent base_color progress_color;
       brightness := LED_BRIGHTNESS;
       frames :=
         (bar_pixels LED_BRIGHTNESS REVERSE n percent base_color progress_color,
          LED_BRIGHTNESS) :: frames s |}.
Proof.
  intros Hp Hn Hs.
  pose proof (BarBufferFacts.progress_buffer LED_BRIGHTNESS REVERSE n percent
                base_color progress_color s Hp Hn Hs) as Hl.
  rewrite BarFacts.progress_shape in *.
  rewrite DriverFacts.exec_paint in *
    by apply BarFacts.segments_are_writes.
  cbn [led_data] in Hl. now rewrite Hl.
Qed.

Lemma progress_draws_the_bar_witness :
  0 <= 55 <= 100 /\ 0 <= 10 < 2 ^ 53 /\ numPixels Script.strip = 10
  /\ led_data
       (exec Script.strip (progress 100 false 10 55 (0, 0, 255) (255, 0, 0)))
     = [(100, 0, 0); (100, 0, 0); (100, 0, 0); (100, 0, 0); (100, 0, 0);
        (25, 0, 25);
        (0, 0, 100); (0, 0, 100); (0, 0, 100); (0, 0, 100)].
Proof.
  assert (H1 : 0 <= 55 <= 100) by (split; discriminate).
  assert (H2 : 0 <= 10 < 2 ^ 53) by (split; [discriminate|reflexivity]).
  assert (H3 : numPixels Script.strip = 10) by reflexivity.
  split; [exact H1|]. split; [exact H2|]. split; [exact H3|].
  rewrite (progress_draws_the_bar 100 false 10 55 (0, 0, 255) (255, 0, 0)
             Script.strip H1 H2 H3).
  vm_compute. reflexivity.
Defined.

(** X9. For a percent of 0 to 100, the strip that [progress] leaves when
    [REVERSE] is set is the mirror image of the strip it leaves when
    [REVERSE] is not set. *)
Theorem progress_reversed_is_the_mirror
    (LED_BRIGHTNESS : Z) (n percent : Z)
    (base_color progress_color : Color) (s : strip) :
  0 <= percent <= 100 -> 0 <= n < 2 ^ 53 -> numPixels s = n ->
  led_data
    (exec s (progress LED_BRIGHTNESS true n percent base_color progress_color))
  = rev (led_data
           (exec s (progress LED_BRIGHTNESS false n percent
                      base_color progress_color))).
Proof.
  intros Hp Hn Hs.
  rewrite !BarBufferFacts.progress_buffer by assumption.
  apply BarBufferFacts.bar_pixels_mirror.
Qed.

Lemma progress_reversed_is_the_mirror_witness :
  0 <= 55 <= 100 /\ 0 <= 10 < 2 ^ 53 /\ numPixels Script.strip = 10
  /\ led_data
       (exec Script.strip (progress 100 true 10 55 (0, 0, 255) (255, 0, 0)))
     = rev (led_data
              (exec Script.strip
                 (progress 100 false 10 55 (0, 0, 255) (255, 0, 0)))).
Proof.
  assert (H1 : 0 <= 55 <= 100) by (split; discriminate).
  assert (H2 : 0 <= 10 < 2 ^ 53) by (split; [discriminate|reflexivity]).
  assert (H3 : numPixels Script.strip = 10) by reflexivity.
  split; [exact H1|]. split; [exact H2|]. split; [exact H3|].
  exact (progress_reversed_is_the_mirror 100 10 55 (0, 0, 255) (255, 0, 0)
           Script.strip H1 H2 H3).
Defined.

(** ** The animations on the strip *)

Module ShowFacts.

Import PyFacts DriverFacts.

Lemma shows_app (t1 t2 : list call) : shows (t1 ++ t2) = (shows t1 + shows t2)%nat.
Proof. unfold shows. now rewrite filter_app, length_app. Qed.

Lemma shows_flat_map {A : Type} (f : A -> list call) (k : nat) (l : list A) :
  (forall a, shows (f a) = k) ->
  shows (flat_map f l) = (k * List.length l)%nat.
Proof.
  intros H. induction l as [|a l IH]; [cbn; lia|].
  cbn [flat_map List.length]. rewrite shows_app, H, IH. lia.
Qed.

Lemma shows_writes (t : list call) :
  forallb is_write t = true -> shows t = O.
Proof.
  induction t as [|e t IH]; [reflexivity|]. cbn [forallb]. intros H.
  apply andb_prop in H. destruct H as [He Ht].
  destruct e; try discriminate. unfold shows in *. cbn [filter]. auto.
Qed.

(** Every flush adds one frame. *)
Lemma frames_length (t : list call) (s : strip) :
  List.length (frames (exec s t)) = (shows t + List.length (frames s))%nat.
Proof.
  revert s. induction t as [|e t IH]; intros s; [reflexivity|].
  rewrite exec_cons, IH. change (e :: t) with ([e] ++ t).
  rewrite shows_app. destruct e; cbn; lia.
Qed.

(** A brightness ramp: each step shows the buffer at one more
    brightness. *)
Lemma exec_ramp (pause : num) (l : list Z) (s : strip) :
  led_data
    (exec s (flat_map (fun i => [SetBrightness i; Show; Sleep pause]) l))
  = led_data s
  /\ frames
       (exec s (flat_map (fun i => [SetBrightness i; Show; Sleep pause]) l))
     = rev (map (fun b => (led_data s, b)) l) ++ frames s.
Proof.
  revert s. induction l as [|b l IH]; intros s; [now split|].
  cbn [flat_map]. rewrite exec_app.
  set (s1 := exec s [SetBrightness b; Show; Sleep pause]).
  destruct (IH s1) as [El Ef]. rewrite El, Ef.
  split; [reflexivity|].
  cbn [map rev]. rewrite <- app_assoc. reflexivity.
Qed.

End ShowFacts.

Module ChaseFacts.

Import PyFacts DriverFacts AnimationFacts.

(** One position of [chase] redraws the whole strip. *)
Lemma chase_pass_buffer (n : Z) (c : Color) (i : Z) (s : strip) :
  numPixels s = n ->
  led_data (exec s (chase_pass n c i)) = one_lit n c i.
Proof.
  intros Hs. unfold one_lit. subst n.
  apply (BufferFacts.exec_writes_all _ s
           (fun pixel => if i =? pixel then c else (0, 0, 0))).
  - rewrite chase_pass_written. apply range_NoDup.
  - intros p Hp. unfold chase_pass. apply in_flat_map.
    exists p. split; [now apply in_range|]. right. now left.
Qed.

(** After several positions the strip shows the last one. *)
Lemma passes_buffer (n : Z) (c : Color) (ps : list Z) (i : Z) (s : strip) :
  numPixels s = n ->
  led_data (exec s (flat_map (chase_pass n c) (ps ++ [i]))) = one_lit n c i.
Proof.
  intros Hs. rewrite flat_map_app, exec_app. cbn [flat_map].
  rewrite app_nil_r. apply chase_pass_buffer.
  now rewrite exec_numPixels.
Qed.

Lemma chase_buffer (LB : Z) (n : Z) (c : Color) (reverse : bool) (s : strip) :
  0 <= n -> numPixels s = n ->
  led_data (exec s (chase LB n c reverse))
  = one_lit n c (if reverse then 0 else n).
Proof.
  intros Hn Hs. unfold chase, chase_positions. rewrite exec_cons.
  assert (Hs1 : numPixels (step s (SetBrightness LB)) = n) by exact Hs.
  destruct reverse.
  - rewrite Z.add_comm, range_cons by exact Hn. cbn [rev].
    now apply passes_buffer.
  - rewrite range_succ by exact Hn. now apply passes_buffer.
Qed.

Lemma one_lit_past_the_end (n : Z) (c : Color) :
  one_lit n c n = repeat (0, 0, 0) (Z.to_nat n).
Proof.
  unfold one_lit. rewrite <- chase_pass_colours.
  apply chase_pass_past_the_end.
Qed.

Lemma one_lit_first (n : Z) (c : Color) :
  1 <= n -> one_lit n c 0 = c :: repeat (0, 0, 0) (Z.to_nat (n - 1)).
Proof.
  intros Hn. unfold one_lit.
  replace n with (1 + (n - 1)) at 1 by lia.
  rewrite range_cons by lia. cbn [map]. f_equal.
  rewrite map_map, <- range_length, <- map_const.
  apply map_ext_in. intros a Ha. apply in_range in Ha.
  destruct (Z.eqb_spec 0 (1 + a)); [lia|reflexivity].
Qed.

Lemma chase_shows (LB : Z) (n : Z) (c : Color) (reverse : bool) :
  0 <= n -> shows (chase LB n c reverse) = Z.to_nat (n * (n + 1)).
Proof.
  intros Hn. unfold chase. change (SetBrightness LB :: ?l)
    with ([SetBrightness LB] ++ l). rewrite ShowFacts.shows_app.
  rewrite (ShowFacts.shows_flat_map _ (Z.to_nat n)).
  - rewrite chase_positions_length. change (shows [SetBrightness LB]) with O.
    lia.
  - intros i. unfold chase_pass.
    rewrite (ShowFacts.shows_flat_map _ 1), range_length by reflexivity. lia.
Qed.

End ChaseFacts.

(** X7. For a percent of [-2^53] to 100, a strip of [n] pixels, a
    brightness setting of 0 to 255 and colours with channels of 0 to 255,
    the bar is a finite float, so that [int(upper_whole)] has a value, and
    [progress] sets the brightness first, then only writes pixels of the
    strip, with colours of channels of 0 to 255, and flushes once, at the
    end: the strip is left at [LED_BRIGHTNESS] and is shown one frame more,
    the pixel buffer as the writes left it. *)
Theorem progress_flushes_once_at_the_end
    (LED_BRIGHTNESS : Z) (REVERSE : bool) (n percent : Z)
    (base_color progress_color : Color) (s : strip) :
  - 2 ^ 53 <= percent <= 100 -> 0 <= n < 2 ^ 53 ->
  0 <= LED_BRIGHTNESS <= 255 ->
  valid_color base_color -> valid_color progress_color ->
  let after :=
    exec s (progress LED_BRIGHTNESS REVERSE n percent base_color progress_color) in
  overflows (bar n percent) = false
  /\ (exists writes,
        progress LED_BRIGHTNESS REVERSE n percent base_color progress_color
        = SetBrightness LED_BRIGHTNESS :: writes ++ [Show]
        /\ forallb is_write writes = true
        /\ Forall (fun i => 0 <= i < n) (written writes)
        /\ Forall valid_color (colours writes))
  /\ shows (progress LED_BRIGHTNESS REVERSE n percent base_color progress_color)
     = 1%nat
  /\ brightness after = LED_BRIGHTNESS
  /\ frames after = (led_data after, LED_BRIGHTNESS) :: frames s
  /\ numPixels after = numPixels s.
Proof.
  intros Hp Hn Hb Hbase Hprog after.
  pose proof (BarFacts.segments_are_writes LED_BRIGHTNESS REVERSE n percent
                base_color progress_color) as Hw.
  pose proof (BarFacts.progress_shape LED_BRIGHTNESS REVERSE n percent
                base_color progress_color) as E.
  pose proof (BarFacts.progress_on_the_strip LED_BRIGHTNESS REVERSE n percent
                base_color progress_color (proj2 Hp) Hn) as Hs.
  split; [apply FiniteFacts.bar_finite; [lia|exact Hn]|].
  split.
  { eexists. split; [exact E|]. split; [exact Hw|].
    split; [|now apply BarFacts.progress_colours_valid].
    rewrite E in Hs.
    change (SetBrightness LED_BRIGHTNESS :: ?l)
      with ([SetBrightness LED_BRIGHTNESS] ++ l) in Hs.
    rewrite DriverFacts.written_app, (DriverFacts.written_app _ [Show]) in Hs.
    cbn [written flat_map app] in Hs. now rewrite app_nil_r in Hs. }
  split.
  { rewrite E.
    change (SetBrightness LED_BRIGHTNESS :: ?l)
      with ([SetBrightness LED_BRIGHTNESS] ++ l).
    rewrite ShowFacts.shows_app, (ShowFacts.shows_app _ [Show]).
    now rewrite (ShowFacts.shows_writes _ Hw). }
  unfold after. rewrite DriverFacts.exec_numPixels.
  rewrite E, DriverFacts.exec_paint by exact Hw.
  cbn [brightness frames led_data]. repeat split.
Qed.

Lemma progress_flushes_once_at_the_end_witness :
  - 2 ^ 53 <= -15 <= 100 /\ 0 <= 10 < 2 ^ 53 /\ 0 <= 100 <= 255
  /\ valid_color Script.HEATING_BASE_COLOR
  /\ valid_color Script.HEATING_PROGRESS_COLOR
  /\ shows (progress 100 true 10 (-15)
              Script.HEATING_BASE_COLOR Script.HEATING_PROGRESS_COLOR)
     = 1%nat.
Proof.
  assert (H1 : - 2 ^ 53 <= -15 <= 100) by (split; discriminate).
  assert (H2 : 0 <= 10 < 2 ^ 53) by (split; [discriminate|reflexivity]).
  assert (H3 : 0 <= 100 <= 255) by (split; discriminate).
  assert (H4 : valid_color Script.HEATING_BASE_COLOR)
    by (repeat split; discriminate).
  assert (H5 : valid_color Script.HEATING_PROGRESS_COLOR)
    by (repeat split; discriminate).
  refine (conj H1 (conj H2 (conj H3 (conj H4 (conj H5 _))))).
  exact (proj1 (proj2 (proj2
           (progress_flushes_once_at_the_end 100 true 10 (-15)
              Script.HEATING_BASE_COLOR Script.HEATING_PROGRESS_COLOR
              Script.strip H1 H2 H3 H4 H5)))).
Defined.

(** X11. On a strip of [n] pixels and with a brightness setting of 0 or
    more, [fade] writes the colour as it is on every pixel, then shows
    the strip at the brightness it found, at 0, 1, ... up to
    [LED_BRIGHTNESS - 1], and at [LED_BRIGHTNESS] down to 0; it leaves the
    pixels at the colour and the brightness at 0, after
    [2 * LED_BRIGHTNESS + 2] flushes. *)
Theorem fade_shows_the_ramp
    (LED_BRIGHTNESS : Z) (n : Z) (color : Color) (speed : string) (s : strip) :
  0 <= LED_BRIGHTNESS -> numPixels s = n ->
  let solid := repeat color (Z.to_nat n) in
  let after := exec s (fade LED_BRIGHTNESS n color speed) in
  led_data after = solid
  /\ brightness after = 0
  /\ frames after
     = rev (map (fun b => (solid, b))
              (brightness s
               :: Py.range LED_BRIGHTNESS
               ++ Py.range_down LED_BRIGHTNESS (-1)))
       ++ frames s
  /\ shows (fade LED_BRIGHTNESS n color speed)
     = Z.to_nat (2 * LED_BRIGHTNESS + 2).
Proof.
  intros HB Hs solid after. unfold after, fade.
  set (pause := Float (if (speed =? "slow")%string then _ else _)).
  set (writes := map (fun pixel => SetPixelColorRGB pixel color) (Py.range n)).
  assert (Hw : forallb is_write writes = true)
    by apply DriverFacts.is_write_map.
  assert (Hl : led_data (exec s writes) = solid).
  { rewrite (DriverFacts.exec_uniform color).
    - unfold solid. unfold numPixels in Hs. now rewrite <- Hs, Nat2Z.id.
    - unfold writes. rewrite (DriverFacts.colours_map (fun i => i)).
      apply Forall_forall. intros x Hx. now apply repeat_spec in Hx.
    - unfold writes. rewrite (DriverFacts.written_map (fun i => i)), map_id, Hs.
      intros i. apply PyFacts.in_range. }
  pose proof (fun l s0 => proj1 (ShowFacts.exec_ramp pause l s0)) as Rl.
  pose proof (fun l s0 => proj2 (ShowFacts.exec_ramp pause l s0)) as Rf.
  split; [|split; [|split]].
  - rewrite !app_assoc, !DriverFacts.exec_app.
    rewrite Rl. change (exec ?x [Sleep ?d]) with x. rewrite Rl.
    exact Hl.
  - rewrite AnimationFacts.range_down_last by exact HB.
    rewrite flat_map_app. cbn [flat_map]. rewrite app_nil_r.
    rewrite !app_assoc, DriverFacts.exec_app. reflexivity.
  - rewrite !app_assoc, !DriverFacts.exec_app.
    change (exec ?x [Sleep ?d]) with x. rewrite !Rf, !Rl.
    change (exec (exec s writes) [Show]) with (step (exec s writes) Show).
    cbn [step led_data frames].
    destruct (DriverFacts.exec_writes writes s Hw) as [Eb Ef].
    rewrite Hl, Eb, Ef.
    cbn [map rev]. rewrite map_app, rev_app_distr, <- !app_assoc.
    reflexivity.
  - rewrite !ShowFacts.shows_app.
    rewrite !(ShowFacts.shows_flat_map _ 1) by reflexivity.
    rewrite (ShowFacts.shows_writes writes Hw), PyFacts.range_length.
    unfold Py.range_down. rewrite length_map, length_seq.
    change (shows [Show]) with 1%nat. change (shows [Sleep _]) with O. lia.
Qed.

Lemma fade_shows_the_ramp_witness :
  0 <= 2 /\ numPixels Script.strip = 10
  /\ map snd
       (frames (exec Script.strip (fade 2 10 Script.ERROR_COLOR "fast")))
     = [0; 1; 2; 1; 0; 100]
  /\ shows (fade 2 10 Script.ERROR_COLOR "fast") = 6%nat.
Proof.
  assert (H1 : 0 <= 2) by discriminate.
  assert (H2 : numPixels Script.strip = 10) by reflexivity.
  split; [exact H1|]. split; [exact H2|].
  destruct (fade_shows_the_ramp 2 10 Script.ERROR_COLOR "fast" Script.strip
              H1 H2) as (_ & _ & F & N).
  split; [rewrite F; reflexivity|exact N].
Defined.

(** X12. On a strip of [n] pixels, [chase] leaves the strip all off when
    it runs forward, since its last position is past the last pixel, and
    leaves the pixel 0 lit and the others off when it runs reversed;
    [bounce], which ends with the reversed run, leaves the pixel 0 lit
    and the brightness at [LED_BRIGHTNESS]. *)
Theorem bounce_ends_on_the_first_pixel
    (LED_BRIGHTNESS : Z) (n : Z) (color : Color) (s : strip) :
  1 <= n -> numPixels s = n ->
  let first_lit := color :: repeat (0, 0, 0) (Z.to_nat (n - 1)) in
  led_data (exec s (chase LED_BRIGHTNESS n color false))
  = repeat (0, 0, 0) (Z.to_nat n)
  /\ led_data (exec s (chase LED_BRIGHTNESS n color true)) = first_lit
  /\ led_data (exec s (bounce LED_BRIGHTNESS n color)) = first_lit
  /\ brightness (exec s (bounce LED_BRIGHTNESS n color)) = LED_BRIGHTNESS.
Proof.
  intros Hn Hs first_lit.
  rewrite !ChaseFacts.chase_buffer by lia.
  rewrite ChaseFacts.one_lit_past_the_end, ChaseFacts.one_lit_first by lia.
  split; [reflexivity|]. split; [reflexivity|].
  unfold bounce. rewrite DriverFacts.exec_app.
  rewrite ChaseFacts.chase_buffer
    by (rewrite ?DriverFacts.exec_numPixels; lia).
  rewrite ChaseFacts.one_lit_first by lia.
  split; [reflexivity|].
  unfold chase at 2. rewrite DriverFacts.exec_cons.
  destruct (DriverFacts.exec_keeps_brightness
              (flat_map (chase_pass n color) (chase_positions n true))
              (step (exec s (chase LED_BRIGHTNESS n color false))
                 (SetBrightness LED_BRIGHTNESS))) as [Hb _].
  - apply DriverFacts.forallb_flat_map.
    apply AnimationFacts.chase_pass_keeps_brightness.
  - exact Hb.
Qed.

Lemma bounce_ends_on_the_first_pixel_witness :
  1 <= 10 /\ numPixels Script.strip = 10
  /\ led_data (exec Script.strip (bounce 100 10 Script.PAUSED_COLOR))
     = [(0, 255, 0); (0, 0, 0); (0, 0, 0); (0, 0, 0); (0, 0, 0);
        (0, 0, 0); (0, 0, 0); (0, 0, 0); (0, 0, 0); (0, 0, 0)].
Proof.
  assert (H1 : 1 <= 10) by discriminate.
  assert (H2 : numPixels Script.strip = 10) by reflexivity.
  split; [exact H1|]. split; [exact H2|].
  destruct (bounce_ends_on_the_first_pixel 100 10 Script.PAUSED_COLOR
              Script.strip H1 H2) as (_ & _ & E & _).
  rewrite E. reflexivity.
Defined.

(** X13. The flushes of the animations: on a strip of [n] pixels [chase]
    flushes [n * (n + 1)] times, once per pixel at each of its [n + 1]
    positions, in either direction, and [bounce] twice as often; every
    flush of a trace adds one frame to those shown. *)
Theorem animations_flush_counts
    (LED_BRIGHTNESS : Z) (n : Z) (color : Color) :
  0 <= n ->
  (forall reverse,
     shows (chase LED_BRIGHTNESS n color reverse) = Z.to_nat (n * (n + 1)))
  /\ shows (bounce LED_BRIGHTNESS n color) = Z.to_nat (2 * n * (n + 1))
  /\ (forall t s,
        List.length (frames (exec s t))
        = (shows t + List.length (frames s))%nat).
Proof.
  intros Hn. split; [|split].
  - intros reverse. now apply ChaseFacts.chase_shows.
  - unfold bounce. rewrite ShowFacts.shows_app, !ChaseFacts.chase_shows by lia.
    nia.
  - apply ShowFacts.frames_length.
Qed.

Lemma animations_flush_counts_witness :
  0 <= 10
  /\ shows (bounce 100 10 Script.PAUSED_COLOR) = 220%nat
  /\ shows (chase 100 10 Script.PAUSED_COLOR true) = 110%nat.
Proof.
  assert (H : 0 <= 10) by discriminate.
  split; [exact H|].
  destruct (animations_flush_counts 100 10 Script.PAUSED_COLOR H)
    as (C & B & _).
  split; [exact B|exact (C true)].
Defined.

(** ** The loop of [run] *)

Module LoopFacts.

Import PyFacts DriverFacts.

Lemma recognised_false (state : string) :
  recognised state = false ->
  (state =? "printing")%string = false
  /\ (state =? "standby")%string = false
  /\ (state =? "paused")%string = false
  /\ (state =? "error")%string = false.
Proof.
  unfold recognised. intros H.
  repeat (apply orb_false_elim in H; destruct H as [H ?]). auto.
Qed.

(** With a state the loop has no branch for, it goes round without a call
    of the strip. *)
Lemma idle_loop (LB : Z) (REV : bool) (np : Z) (api : nat -> status) :
  forall queries n at_ s,
    (forall k, (n <= k < n + queries)%nat ->
       recognised (state (api k)) = false) ->
    between_phases at_ = true ->
    exec s (main_loop LB REV np queries api n at_) = s
    /\ written (main_loop LB REV np queries api n at_) = [].
Proof.
  induction queries as [|q IH]; intros n at_ s Hu Hat; [now split|].
  destruct (recognised_false _ (Hu n ltac:(lia))) as (E1 & E2 & E3 & E4).
  assert (Hu' : forall k, (S n <= k < S n + q)%nat ->
            recognised (state (api k)) = false)
    by (intros k Hk; apply Hu; lia).
  cbn [main_loop].
  destruct at_; try discriminate; cbn [advance]; unfold printer_state;
    rewrite ?E1, ?E2, ?E3, ?E4;
    rewrite exec_app, written_app;
    match goal with
    | |- context [main_loop _ _ _ q api (S n) ?p] =>
        destruct (IH (S n) p s Hu' eq_refl) as [Ee Ew]
    end;
    cbn [exec fold_left step written flat_map app];
    rewrite ?Ew; split; auto.
Qed.

(** A poll below its threshold draws the bar and comes again. *)
Lemma poll_below (LB : Z) (REV : bool) (np : Z) (p threshold : Z)
    (base prog : Color) (again next : place) :
  p < threshold ->
  poll LB REV np (Ok p) threshold base prog again next
  = Ok (again, progress LB REV np p base prog ++ [Sleep (Int 2)]).
Proof.
  intros H. unfold poll. cbn [Py.bind].
  now replace (p <? threshold) with true by (symmetry; now apply Z.ltb_lt).
Qed.

Lemma written_firstn (P : Z -> Prop) (t : list call) (k : nat) :
  Forall P (written t) -> Forall P (written (firstn k t)).
Proof.
  revert k. induction t as [|e t IH]; intros k H; [now destruct k|].
  destruct k as [|k]; [constructor|]. cbn [firstn].
  change (e :: t) with ([e] ++ t) in H.
  change (e :: firstn k t) with ([e] ++ firstn k t).
  rewrite written_app in *. apply Forall_app in H. destruct H as [He Ht].
  apply Forall_app. split; [exact He|now apply IH].
Qed.

End LoopFacts.

(** X14. From a place of the loop of [run] outside the three percent
    polls of the printing phase, and as long as the status API answers a
    state that is none of ["printing"], ["standby"], ["paused"] and
    ["error"], the loop makes no call of the strip: whatever was drawn last
    stays, shown as it was, and nothing is flushed.  (At a percent poll the
    loop does not look at the state and goes on drawing the bar.) *)
Theorem unrecognised_state_leaves_the_strip
    (LED_BRIGHTNESS : Z) (REVERSE : bool) (num_pixels : Z)
    (api : nat -> status) (queries n : nat) (at_ : place) (s : strip) :
  between_phases at_ = true ->
  (forall k, (n <= k < n + queries)%nat ->
     recognised (state (api k)) = false) ->
  exec s (main_loop LED_BRIGHTNESS REVERSE num_pixels queries api n at_) = s
  /\ written (main_loop LED_BRIGHTNESS REVERSE num_pixels queries api n at_)
     = []
  /\ shows (main_loop LED_BRIGHTNESS REVERSE num_pixels queries api n at_)
     = O.
Proof.
  intros Hat Hu.
  destruct (LoopFacts.idle_loop LED_BRIGHTNESS REVERSE num_pixels api
              queries n at_ s Hu Hat) as [Ee Ew].
  split; [exact Ee|]. split; [exact Ew|].
  pose proof (ShowFacts.frames_length
                (main_loop LED_BRIGHTNESS REVERSE num_pixels queries api n at_)
                s) as Hf.
  rewrite Ee in Hf. lia.
Qed.

Lemma unrecognised_state_leaves_the_strip_witness :
  let idle := {| temperature := Float 0%Q; target := Float 0%Q |} in
  let api := fun k : nat =>
    {| state := if (k <? 3)%nat then "paused" else "complete";
       heater_bed := idle; extruder := idle;
       display_progress := Float 1%Q |} in
  between_phases WhilePaused = true
  /\ (forall k, (3 <= k < 3 + 12)%nat -> recognised (state (api k)) = false)
  /\ exec Script.strip (main_loop 100 true 10 12 api 3 WhilePaused)
     = Script.strip.
Proof.
  intros idle api.
  assert (H : forall k, (3 <= k < 3 + 12)%nat ->
            recognised (state (api k)) = false).
  { intros k Hk. unfold api. cbn [state].
    replace (k <? 3)%nat with false by (symmetry; apply Nat.ltb_ge; lia).
    reflexivity. }
  split; [reflexivity|]. split; [exact H|].
  exact (proj1 (unrecognised_state_leaves_the_strip 100 true 10 api 12 3
                  WhilePaused Script.strip eq_refl H)).
Defined.

Module LoopTraceFacts.

Import PyFacts DriverFacts LoopFacts.

Lemma fade_on_the_strip (LB : Z) (n : Z) (c : Color) (speed : string) :
  Forall (fun i => 0 <= i < n) (written (fade LB n c speed)).
Proof.
  unfold fade. rewrite !written_app.
  rewrite (written_map (fun i => i)), map_id.
  assert (R : forall d l,
            written (flat_map (fun i => [SetBrightness i; Show; Sleep d]) l)
            = []).
  { intros d l. induction l as [|a l IH]; [reflexivity|].
    cbn [flat_map]. now rewrite written_app, IH. }
  rewrite !R. cbn [written flat_map app]. rewrite app_nil_r.
  apply Forall_forall. intros i. apply in_range.
Qed.

Lemma chase_on_the_strip (LB : Z) (n : Z) (c : Color) (reverse : bool) :
  Forall (fun i => 0 <= i < n) (written (chase LB n c reverse)).
Proof.
  unfold chase. change (SetBrightness LB :: ?l) with ([SetBrightness LB] ++ l).
  rewrite written_app. cbn [written flat_map app].
  induction (chase_positions n reverse) as [|p ps IH]; [constructor|].
  cbn [flat_map]. rewrite written_app. apply Forall_app. split; [|exact IH].
  rewrite AnimationFacts.chase_pass_written.
  apply Forall_forall. intros i. apply in_range.
Qed.

Lemma poll_on_the_strip (LB : Z) (REV : bool) (np : Z) (percent : result Z)
    (threshold : Z) (base prog : Color) (again next : place) :
  threshold <= 100 -> 0 <= np < 2 ^ 53 ->
  match poll LB REV np percent threshold base prog again next with
  | Ok (_, done) => Forall (fun i => 0 <= i < np) (written done)
  | Raise _ => True
  end.
Proof.
  intros Ht Hn. unfold poll. destruct percent as [p|e]; [|exact I].
  cbn [Py.bind]. destruct (Z.ltb_spec p threshold) as [Hp|Hp]; [|constructor].
  rewrite written_app. cbn [written flat_map app]. rewrite app_nil_r.
  apply BarFacts.progress_on_the_strip; lia.
Qed.

Lemma advance_on_the_strip (LB : Z) (REV : bool) (np : Z) (at_ : place)
    (answer : status) :
  0 <= np < 2 ^ 53 ->
  match advance LB REV np at_ answer with
  | Ok (_, done) => Forall (fun i => 0 <= i < np) (written done)
  | Raise _ => True
  end.
Proof.
  intros Hn. destruct at_; cbn [advance];
    try (apply poll_on_the_strip; [discriminate|exact Hn]);
    try (destruct (String.eqb _ _));
    try (constructor; fail);
    try apply fade_on_the_strip.
  unfold bounce. rewrite written_app. apply Forall_app.
  split; apply chase_on_the_strip.
Qed.

Lemma main_loop_on_the_strip (LB : Z) (REV : bool) (np : Z)
    (api : nat -> status) :
  0 <= np < 2 ^ 53 ->
  forall queries n at_,
    Forall (fun i => 0 <= i < np)
      (written (main_loop LB REV np queries api n at_)).
Proof.
  intros Hn. induction queries as [|q IH]; intros n at_; [constructor|].
  cbn [main_loop].
  pose proof (advance_on_the_strip LB REV np at_ (api n) Hn) as H.
  destruct (advance LB REV np at_ (api n)) as [[to done]|e]; [|constructor].
  rewrite written_app. apply Forall_app. split; [exact H|apply IH].
Qed.

End LoopTraceFacts.

(** X15. While the bed reads below 99 percent the loop of [run] stays in
    the bed-heating phase, whatever state the printer is in by then: each
    query reads the bed only, draws the heating bar and sleeps two seconds.
    This is for answers with finite readings and a percent of [-2^53] at
    least, on a strip of [num_pixels] pixels and with a brightness setting
    of 0 to 255, where every bar drawn is a finite float and every colour
    written has channels of 0 to 255.  A bed with a target of 0 reads 0
    percent, so the loop stays there. *)
Theorem bed_phase_ignores_the_state
    (LED_BRIGHTNESS : Z) (REVERSE : bool) (num_pixels : Z)
    (api : nat -> status) (queries n : nat) :
  0 <= num_pixels < 2 ^ 53 -> 0 <= LED_BRIGHTNESS <= 255 ->
  (forall k, (n <= k < n + queries)%nat ->
     finite_reading (temperature (heater_bed (api k)))
     /\ finite_reading (target (heater_bed (api k)))
     /\ exists p, heating_percent (heater_bed (api k)) = Ok p
                  /\ - 2 ^ 53 <= p < 99) ->
  main_loop LED_BRIGHTNESS REVERSE num_pixels queries api n PollBed
  = flat_map
      (fun k =>
         progress LED_BRIGHTNESS REVERSE num_pixels
           (percent_read (heating_percent (heater_bed (api k))))
           Script.HEATING_BASE_COLOR Script.HEATING_PROGRESS_COLOR
         ++ [Sleep (Int 2)])
      (seq n queries)
  /\ (forall k, (n <= k < n + queries)%nat ->
        overflows
          (bar num_pixels (percent_read (heating_percent (heater_bed (api k)))))
        = false
        /\ Forall valid_color
             (colours
                (progress LED_BRIGHTNESS REVERSE num_pixels
                   (percent_read (heating_percent (heater_bed (api k))))
                   Script.HEATING_BASE_COLOR Script.HEATING_PROGRESS_COLOR)))
  /\ (forall temp, Py.is_zero (target temp) = true ->
        heating_percent temp = Ok 0).
Proof.
  intros Hnp Hb H. split; [|split].
  - revert n H. induction queries as [|q IH]; intros n H; [reflexivity|].
    destruct (H n ltac:(lia)) as (_ & _ & p & Ep & Hp).
    cbn [main_loop advance seq flat_map]. rewrite Ep.
    rewrite LoopFacts.poll_below by lia.
    cbn [percent_read]. f_equal. apply IH. intros k Hk. apply H. lia.
  - intros k Hk. destruct (H k Hk) as (_ & _ & p & -> & Hp).
    cbn [percent_read]. split.
    + apply FiniteFacts.bar_finite; [|exact Hnp].
      split; [lia|]. transitivity 99; [lia|discriminate].
    + apply BarFacts.progress_writes_valid_colours;
        [exact Hb|repeat split; discriminate..].
  - intros temp Hz. unfold heating_percent. now rewrite Hz.
Qed.

Lemma bed_phase_ignores_the_state_witness :
  let cold := {| temperature := Float 21%Q; target := Float 0%Q |} in
  let api := fun _ : nat =>
    {| state := "standby"; heater_bed := cold; extruder := cold;
       display_progress := Float 0%Q |} in
  0 <= 10 < 2 ^ 53 /\ 0 <= 100 <= 255
  /\ (forall k, (0 <= k < 0 + 3)%nat ->
        finite_reading (temperature (heater_bed (api k)))
        /\ finite_reading (target (heater_bed (api k)))
        /\ exists p, heating_percent (heater_bed (api k)) = Ok p
                     /\ - 2 ^ 53 <= p < 99)
  /\ main_loop 100 true 10 3 api 0 PollBed
     = flat_map
         (fun _ =>
            progress 100 true 10 0
              Script.HEATING_BASE_COLOR Script.HEATING_PROGRESS_COLOR
            ++ [Sleep (Int 2)])
         (seq 0 3).
Proof.
  intros cold api.
  assert (H1 : 0 <= 10 < 2 ^ 53) by (split; [discriminate|reflexivity]).
  assert (H2 : 0 <= 100 <= 255) by (split; discriminate).
  assert (H : forall k, (0 <= k < 0 + 3)%nat ->
            finite_reading (temperature (heater_bed (api k)))
            /\ finite_reading (target (heater_bed (api k)))
            /\ exists p, heating_percent (heater_bed (api k)) = Ok p
                         /\ - 2 ^ 53 <= p < 99).
  { intros k _. split; [reflexivity|]. split; [reflexivity|].
    exists 0. split; [reflexivity|]. split; [discriminate|reflexivity]. }
  refine (conj H1 (conj H2 (conj H _))).
  exact (proj1 (bed_phase_ignores_the_state 100 true 10 api 3 0 H1 H2 H)).
Defined.

(** X16. On a strip of [n] pixels, every pixel index that [run] writes,
    in the loop up to the interrupt and in the handler, is an index of
    the strip: the bars are drawn for percents below 100 only, and the
    animations and the handler go over [range(n)]. *)
Theorem run_writes_on_the_strip
    (LED_BRIGHTNESS : Z) (REVERSE : bool) (num_pixels : Z)
    (api : nat -> status) (queries interrupt : nat) :
  0 <= num_pixels < 2 ^ 53 ->
  Forall (fun i => 0 <= i < num_pixels)
    (written
       (firstn interrupt
          (main_loop LED_BRIGHTNESS REVERSE num_pixels queries api 0 Top)
        ++ on_interrupt num_pixels)).
Proof.
  intros Hn. rewrite DriverFacts.written_app. apply Forall_app. split.
  - apply LoopFacts.written_firstn.
    now apply LoopTraceFacts.main_loop_on_the_strip.
  - unfold on_interrupt. rewrite DriverFacts.written_app.
    rewrite (DriverFacts.written_map (fun i => i)), map_id.
    cbn [written flat_map app]. rewrite app_nil_r.
    apply Forall_forall. intros i. apply PyFacts.in_range.
Qed.

Lemma run_writes_on_the_strip_witness :
  let hot := {| temperature := Float 30%Q; target := Float 60%Q |} in
  let api := fun _ : nat =>
    {| state := "printing"; heater_bed := hot; extruder := hot;
       display_progress := Float 0%Q |} in
  0 <= 10 < 2 ^ 53
  /\ Forall (fun i => 0 <= i < 10)
       (written
          (firstn 20 (main_loop 100 true 10 5 api 0 Top) ++ on_interrupt 10)).
Proof.
  intros hot api.
  assert (H : 0 <= 10 < 2 ^ 53) by (split; [discriminate|reflexivity]).
  split; [exact H|].
  exact (run_writes_on_the_strip 100 true 10 api 5 20 H).
Defined.

(** X18. While the state stays ["standby"], ["paused"] or ["error"], the
    loop of [run] stays at the branch of that state and plays its
    animation again at every query, back to back: a slow fade of the
    standby colour, a bounce of the paused colour, a fast fade of the
    error colour. *)
Theorem animation_branch_repeats
    (LED_BRIGHTNESS : Z) (REVERSE : bool) (num_pixels : Z)
    (api : nat -> status) (at_ : place) (name : string) (queries n : nat) :
  branch_state at_ = Some name ->
  (forall k, (n <= k < n + queries)%nat -> state (api k) = name) ->
  main_loop LED_BRIGHTNESS REVERSE num_pixels queries api n at_
  = concat (repeat (branch_animation LED_BRIGHTNESS num_pixels at_) queries).
Proof.
  intros Hb.
  destruct at_; try discriminate; cbn [branch_state] in Hb;
    injection Hb as <-; revert n;
    (induction queries as [|q IH]; intros n H; [reflexivity|]);
    pose proof (H n ltac:(lia)) as Hn;
    cbn [main_loop repeat concat advance branch_animation];
    unfold printer_state; rewrite Hn; cbn [String.eqb Ascii.eqb Bool.eqb];
    f_equal; apply IH; intros k Hk; apply H; lia.
Qed.

Lemma animation_branch_repeats_witness :
  let idle := {| temperature := Float 0%Q; target := Float 0%Q |} in
  let api := fun _ : nat =>
    {| state := "paused"; heater_bed := idle; extruder := idle;
       display_progress := Float 0%Q |} in
  branch_state WhilePaused = Some "paused"%string
  /\ (forall k, (0 <= k < 0 + 2)%nat -> state (api k) = "paused"%string)
  /\ main_loop 100 true 10 2 api 0 WhilePaused
     = bounce 100 10 Script.PAUSED_COLOR
       ++ bounce 100 10 Script.PAUSED_COLOR ++ [].
Proof.
  intros idle api.
  assert (H : forall k, (0 <= k < 0 + 2)%nat -> state (api k) = "paused"%string)
    by (intros k _; reflexivity).
  split; [reflexivity|]. split; [exact H|].
  exact (animation_branch_repeats 100 true 10 api WhilePaused "paused" 2 0
           eq_refl H).
Defined.
